(** * person_sensor.py: frame unpacking and poll timing of the Person Sensor driver

    A shallow embedding of [src/person_sensor.py] (a MicroPython driver for
    the Useful Sensors Person Sensor on an I2C bus) and the properties of
    its frame decoder, its rate limiter and its mode command.

    Conventions of the embedding:
    - a [bytearray] / [bytes] value is a [list byte];
    - a Python [int] is a [Z]; offsets and lengths, which the driver only
      ever uses non-negative, are [nat];
    - a [struct] format string is the list of its format characters;
    - an exception is a value of [exn]; a computation that may raise
      returns a [result];
    - the driver object and its collaborators ([machine.I2C], [time]) are
      an explicit state threaded by the monad [M]. *)

From Stdlib Require Import String.
From Stdlib Require Import ZArith NArith List Bool Lia Sorted.
From Stdlib Require Import Strings.Byte.
Import ListNotations.

Set Implicit Arguments.

(** ** Exceptions and results *)

Inductive exn : Type :=
| ValueError (msg : string)
| TypeError (msg : string)
| OSError (errno : Z).

Inductive result (A : Type) : Type :=
| Ok (a : A)
| Raise (e : exn).

Arguments Ok {A} a.
Arguments Raise {A} e.

Definition rbind {A B} (r : result A) (k : A -> result B) : result B :=
  match r with
  | Ok a => k a
  | Raise e => Raise e
  end.

(** ** The part of the [struct] module the driver uses *)

Module Struct.

(** Format characters: ['B'] unsigned char, ['b'] signed char,
    ['H'] unsigned short.  No byte-order prefix is used by the driver,
    so sizes and alignment are the native ones. *)
Inductive code : Type := fB | fb | fH.

Definition size (c : code) : nat :=
  match c with
  | fB | fb => 1
  | fH => 2
  end.

(** Round [off] up to a multiple of [a]. *)
Definition align (off a : nat) : nat := (off + (a - 1)) / a * a.

Fixpoint calcsize_from (off : nat) (fmt : list code) : nat :=
  match fmt with
  | [] => off
  | c :: fmt' => calcsize_from (align off (size c) + size c) fmt'
  end.

Definition calcsize (fmt : list code) : nat := calcsize_from 0 fmt.

Definition byte_at (buf : list byte) (p : nat) : Z :=
  Z.of_N (Byte.to_N (nth p buf x00)).

(** One item read at position [p]; ['H'] in the little-endian order of
    the boards the driver runs on. *)
Definition get_val (c : code) (buf : list byte) (p : nat) : Z :=
  match c with
  | fB => byte_at buf p
  | fb => let v := byte_at buf p in
          if (v <? 128)%Z then v else (v - 256)%Z
  | fH => (byte_at buf p + 256 * byte_at buf (p + 1))%Z
  end.

(** Items are aligned relative to [base], the start of the unpacked
    region, not to the start of the buffer. *)
Fixpoint unpack_items (buf : list byte) (base off : nat)
         (fmt : list code) : list Z :=
  match fmt with
  | [] => []
  | c :: fmt' =>
      let o := align off (size c) in
      get_val c buf (base + o) :: unpack_items buf base (o + size c) fmt'
  end.

Definition buffer_too_small : exn := ValueError "buffer too small".

Definition unpack_from (fmt : list code) (buf : list byte)
           (offset : nat) : result (list Z) :=
  if offset + calcsize fmt <=? length buf
  then Ok (unpack_items buf offset 0 fmt)
  else Raise buffer_too_small.

(** The byte holding the low eight bits of [v]. *)
Definition byte_of_Z (v : Z) : byte :=
  match Byte.of_N (Z.to_N (v mod 256)) with
  | Some x => x
  | None => x00
  end.

Definition put_val (c : code) (v : Z) : list byte :=
  match c with
  | fB | fb => [byte_of_Z v]
  | fH => [byte_of_Z v; byte_of_Z (v / 256)]
  end.

Fixpoint pack_from (off : nat) (fmt : list code)
         (vals : list Z) : result (list byte) :=
  match fmt, vals with
  | [], [] => Ok []
  | c :: fmt', v :: vals' =>
      let o := align off (size c) in
      rbind (pack_from (o + size c) fmt' vals')
            (fun rest => Ok (repeat x00 (o - off) ++ put_val c v ++ rest))
  | [], _ :: _ => Raise (TypeError "too many arguments for format")
  | _ :: _, [] => Raise (TypeError "too few arguments for format")
  end.

Definition pack (fmt : list code) (vals : list Z) : result (list byte) :=
  pack_from 0 fmt vals.

End Struct.

(** ** Module constants *)

Definition PERSON_SENSOR_I2C_ADDRESS : Z := 0x62.
Definition PERSON_SENSOR_I2C_HEADER_FORMAT : list Struct.code :=
  [Struct.fB; Struct.fB; Struct.fH].
Definition PERSON_SENSOR_I2C_HEADER_BYTE_COUNT : nat :=
  Struct.calcsize PERSON_SENSOR_I2C_HEADER_FORMAT.
Definition PERSON_SENSOR_FACE_FORMAT : list Struct.code :=
  [Struct.fB; Struct.fB; Struct.fB; Struct.fB;
   Struct.fB; Struct.fB; Struct.fb; Struct.fB].
Definition PERSON_SENSOR_FACE_BYTE_COUNT : nat :=
  Struct.calcsize PERSON_SENSOR_FACE_FORMAT.

Definition PERSON_SENSOR_FACE_MAX : nat := 4.
Definition PERSON_SENSOR_RESULT_FORMAT : list Struct.code :=
  PERSON_SENSOR_I2C_HEADER_FORMAT
    ++ [Struct.fB]
    ++ concat (repeat PERSON_SENSOR_FACE_FORMAT PERSON_SENSOR_FACE_MAX)
    ++ [Struct.fH].
Definition PERSON_SENSOR_RESULT_BYTE_COUNT : nat :=
  Struct.calcsize PERSON_SENSOR_RESULT_FORMAT.

Definition PERSON_SENSOR_NUM_IDS : Z := 8.

(** minimum amount of time between fresh inferences, in milliseconds *)
Definition PERSON_SENSOR_DELAY : Z := 200.

Definition _REG_ADDR_SET_MODE : Z := 0x01.

Definition MODE_STANDBY : Z := 0x00.
Definition MODE_CONTINUOUS : Z := 0x01.

Definition _MODES : list Z := [MODE_STANDBY; MODE_CONTINUOUS].

Record PersonSensorFace : Type := mkPersonSensorFace {
  box_confidence : Z;
  box_left : Z;
  box_top : Z;
  box_right : Z;
  box_bottom : Z;
  id_confidence : Z;
  id : Z;
  is_facing : Z
}.

(** The namedtuple constructor applied to the unpacked tuple: one
    positional argument per field. *)
Definition PersonSensorFace_of_tuple (t : list Z) : result PersonSensorFace :=
  match t with
  | [a; b; c; d; e; f; g; h] => Ok (mkPersonSensorFace a b c d e f g h)
  | _ => Raise (TypeError "function takes 8 positional arguments")
  end.

(** ** The unpacking half of [get_faces] (source lines 147-171) *)

(** The [for _ in range(num_faces)] loop, carrying [offset] and [faces]. *)
Fixpoint unpack_faces (buffer : list byte) (num_faces : nat) (offset : nat)
         (faces : list PersonSensorFace)
  : result (list PersonSensorFace * nat) :=
  match num_faces with
  | O => Ok (faces, offset)
  | S k =>
      rbind (Struct.unpack_from PERSON_SENSOR_FACE_FORMAT buffer offset)
        (fun face_tuple =>
           let offset := offset + PERSON_SENSOR_FACE_BYTE_COUNT in
           rbind (PersonSensorFace_of_tuple face_tuple)
             (fun face => unpack_faces buffer k offset (faces ++ [face])))
  end.

(** What the unpacking yields: the returned list, the value stored in
    [self.last_checksum], and the value of [offset] at which line 170
    reads it. *)
Record Unpacked : Type := mkUnpacked {
  u_faces : list PersonSensorFace;
  u_checksum : Z;
  u_checksum_offset : nat
}.

Definition unpack_buffer (buffer : list byte) : result Unpacked :=
  let offset := 0 in
  let offset := offset + PERSON_SENSOR_I2C_HEADER_BYTE_COUNT in
  rbind (Struct.unpack_from [Struct.fB] buffer offset)
    (fun num_faces =>
       let num_faces := Z.to_nat (hd 0%Z num_faces) in
       let offset := offset + 1 in
       rbind (unpack_faces buffer num_faces offset [])
         (fun '(faces, offset) =>
            rbind (Struct.unpack_from [Struct.fH] buffer offset)
              (fun last_checksum =>
                 Ok (mkUnpacked faces (hd 0%Z last_checksum) offset)))).


(** ** The driver object and its collaborators *)

(** The instance attributes.  [buffer] is [None] until the first
    [get_faces]; [last_checksum] does not exist until a frame has been
    unpacked to its end. *)
Record PersonSensor : Type := mkPersonSensor {
  auto_delay : bool;
  address : Z;
  buffer : option (list byte);
  last_read : Z;
  last_checksum : option Z
}.

(** What the driver does to its collaborators. *)
Inductive event : Type :=
| Sleep (ms : Z)
| WriteTo (addr : Z) (data : list byte)
| ReadFromInto (addr : Z) (nbytes : nat).

(** The world outside the object: the millisecond counter that
    [time.ticks_ms] reads, and the calls made so far on [time.sleep] and on
    the bus, oldest first, each with the counter at the moment it was
    initiated. *)
Record World : Type := mkWorld {
  clock : Z;
  trace : list (Z * event)
}.

(** What the environment decides during one [get_faces]: by how much a
    sleep overshoots the requested time, and the bytes the device sends. *)
Record Env : Type := mkEnv {
  oversleep : Z;
  device_data : list byte
}.

Record State : Type := mkState {
  self : PersonSensor;
  world : World
}.

(** Computations that read and change the state and may raise.  The state
    reached when an exception is raised is kept: an attribute assigned
    before the [raise] stays assigned. *)
Definition M (A : Type) : Type := State -> result A * State.

Definition ret {A} (a : A) : M A := fun s => (Ok a, s).

Definition raise {A} (e : exn) : M A := fun s => (Raise e, s).

Definition bind {A B} (m : M A) (k : A -> M B) : M B :=
  fun s =>
    match m s with
    | (Ok a, s') => k a s'
    | (Raise e, s') => (Raise e, s')
    end.

Definition lift {A} (r : result A) : M A := fun s => (r, s).

Declare Scope driver_scope.
Delimit Scope driver_scope with driver.
Notation "x <- m ;; k" := (bind m (fun x => k))
  (at level 61, m at next level, right associativity) : driver_scope.
Notation "m ;; k" := (bind m (fun _ => k))
  (at level 61, right associativity) : driver_scope.

Local Open Scope Z_scope.
Local Open Scope driver_scope.

Definition get_self {A} (field : PersonSensor -> A) : M A :=
  fun s => (Ok (field (self s)), s).

Definition set_buffer (b : list byte) : M unit :=
  fun s =>
    let o := self s in
    (Ok tt, mkState (mkPersonSensor (auto_delay o) (address o) (Some b)
                                    (last_read o) (last_checksum o))
                    (world s)).

Definition set_last_read (t : Z) : M unit :=
  fun s =>
    let o := self s in
    (Ok tt, mkState (mkPersonSensor (auto_delay o) (address o) (buffer o)
                                    t (last_checksum o))
                    (world s)).

Definition set_last_checksum (c : Z) : M unit :=
  fun s =>
    let o := self s in
    (Ok tt, mkState (mkPersonSensor (auto_delay o) (address o) (buffer o)
                                    (last_read o) (Some c))
                    (world s)).

Definition log (e : event) (w : World) : World :=
  mkWorld (clock w) (trace w ++ [(clock w, e)]).

Definition advance (ms : Z) (w : World) : World :=
  mkWorld (clock w + ms) (trace w).

(** [time.ticks_ms()] *)
Definition ticks_ms : M Z :=
  fun s => (Ok (clock (world s)), s).

(** [time.sleep(ms / 1000)]: returns once the requested time and the
    overshoot have passed. *)
Definition sleep (env : Env) (ms : Z) : M unit :=
  fun s =>
    (Ok tt, mkState (self s)
                    (advance (ms + oversleep env) (log (Sleep ms) (world s)))).

(** [bytearray(n)] *)
Definition bytearray (n : nat) : list byte := repeat x00 n.

(** A block read always transfers as many bytes as the buffer holds; a
    byte the device does not drive reads as 0xff. *)
Definition fill (n : nat) (data : list byte) : list byte :=
  firstn n (data ++ repeat xff n).

(** [self.i2c.readfrom_into(self.address, self.buffer)] when the transfer
    succeeds; [readfrom_into_bus] covers the one that fails. *)
Definition readfrom_into (env : Env) : M unit :=
  fun s =>
    let o := self s in
    let n := match buffer o with Some b => length b | None => O end in
    set_buffer (fill n (device_data env))
               (mkState o (log (ReadFromInto (address o) n) (world s))).

(** [self.i2c.writeto(self.address, data)] *)
Definition _write (data : list byte) : M unit :=
  fun s =>
    (Ok tt, mkState (self s) (log (WriteTo (address (self s)) data) (world s))).

(** [bytes(iterable_of_ints)] *)
Fixpoint bytes (l : list Z) : result (list byte) :=
  match l with
  | [] => Ok []
  | v :: l' =>
      if (0 <=? v) && (v <? 256)
      then rbind (bytes l') (fun r => Ok (Struct.byte_of_Z v :: r))
      else Raise (ValueError "bytes must be in range(0, 256)")
  end.

(** [PersonSensor.__init__] *)
Definition PersonSensor_init (auto_delay : bool) (address : Z)
           (w : World) : State :=
  mkState (mkPersonSensor auto_delay address None (clock w) None) w.

(** [PersonSensor.set_mode] *)
Definition set_mode (mode : Z) : M unit :=
  if negb (existsb (Z.eqb mode) _MODES)
  then raise (ValueError "Invalid mode for person sensor")
  else
    data <- lift (bytes [_REG_ADDR_SET_MODE; mode]) ;;
    _write data.

(** [PersonSensor.get_faces], its block read succeeding; [get_faces_bus]
    covers the block read that fails. *)
Definition get_faces (env : Env) : M (list PersonSensorFace) :=
  set_buffer (bytearray PERSON_SENSOR_RESULT_BYTE_COUNT) ;;
  auto <- get_self auto_delay ;;
  (if auto : bool
   then
     now <- ticks_ms ;;
     last <- get_self last_read ;;
     let delta := now - last in
     let delay := PERSON_SENSOR_DELAY - delta in
     (if delta <? PERSON_SENSOR_DELAY then sleep env delay else ret tt) ;;
     set_last_read (now + delay)
   else ret tt) ;;
  readfrom_into env ;;
  buf <- get_self buffer ;;
  u <- lift (unpack_buffer (match buf with Some b => b | None => [] end)) ;;
  set_last_checksum (u_checksum u) ;;
  ret (u_faces u).

(** ** Successive calls *)

(** One [get_faces] call of a caller's loop: [idle] milliseconds pass
    after the previous operation, then the call is made. *)
Record Call : Type := mkCall {
  idle : Z;
  env : Env
}.

Definition pass (ms : Z) (s : State) : State :=
  mkState (self s) (advance ms (world s)).

Definition call (c : Call) (s : State) : result (list PersonSensorFace) * State :=
  get_faces (env c) (pass (idle c) s).

(** The states after each call of the sequence, in order. *)
Fixpoint run (calls : list Call) (s : State) : list State :=
  match calls with
  | [] => []
  | c :: calls' => let s' := snd (call c s) in s' :: run calls' s'
  end.

Definition final (calls : list Call) (s : State) : State :=
  last (run calls s) s.

(** The times at which block reads were initiated. *)
Fixpoint read_times (tr : list (Z * event)) : list Z :=
  match tr with
  | [] => []
  | (t, ReadFromInto _ _) :: tr' => t :: read_times tr'
  | _ :: tr' => read_times tr'
  end.

(** The sleeps requested. *)
Fixpoint sleeps (tr : list (Z * event)) : list Z :=
  match tr with
  | [] => []
  | (_, Sleep ms) :: tr' => ms :: sleeps tr'
  | _ :: tr' => sleeps tr'
  end.

(** Every two successive elements are at least [d] apart. *)
Fixpoint spaced (d : Z) (l : list Z) : bool :=
  match l with
  | [] => true
  | t :: l' =>
      match l' with
      | [] => true
      | t' :: _ => (t + d <=? t') && spaced d l'
      end
  end.

(** ** What the spec's words mean on this code *)

(** Modelled from the spec: the two decode failures it names.  The only
    exception the unpacking code can raise is the buffer-too-small error
    of [struct.unpack_from], which is the spec's [Truncated]; no statement
    of the source raises on the value of the face count, so nothing maps
    to [InvalidCount]. *)
Inductive DecodeError : Type := InvalidCount | Truncated.

Definition decode_error {A} (r : result A) : option DecodeError :=
  match r with
  | Raise (ValueError "buffer too small") => Some Truncated
  | _ => None
  end.

(** The face count the buffer announces (its byte 4). *)
Definition num_faces_of (buffer : list byte) : nat :=
  Z.to_nat (Struct.byte_at buffer 4).

(** The offset of the checksum in the fixed layout: header, count byte and
    [PERSON_SENSOR_FACE_MAX] face slots. *)
Definition fixed_checksum_offset : nat :=
  (PERSON_SENSOR_I2C_HEADER_BYTE_COUNT + 1
   + PERSON_SENSOR_FACE_MAX * PERSON_SENSOR_FACE_BYTE_COUNT)%nat.

(** The size of the full fixed frame: up to the checksum, and the 16-bit
    checksum. *)
Definition fixed_frame_size : nat := (fixed_checksum_offset + 2)%nat.

(** The face record whose eight bytes start at [offset]. *)
Definition face_at (buffer : list byte) (offset : nat) : PersonSensorFace :=
  mkPersonSensorFace
    (Struct.byte_at buffer offset)
    (Struct.byte_at buffer (offset + 1))
    (Struct.byte_at buffer (offset + 2))
    (Struct.byte_at buffer (offset + 3))
    (Struct.byte_at buffer (offset + 4))
    (Struct.byte_at buffer (offset + 5))
    (Struct.get_val Struct.fb buffer (offset + 6))
    (Struct.byte_at buffer (offset + 7)).

(** The records of the first [n] slots after [offset]. *)
Definition faces_at (buffer : list byte) (offset n : nat)
  : list PersonSensorFace :=
  map (fun k => face_at buffer (offset + 8 * k)) (seq 0 n).

(** The values a face record is packed from, and their ranges. *)
Definition tuple_of_face (f : PersonSensorFace) : list Z :=
  [box_confidence f; box_left f; box_top f; box_right f;
   box_bottom f; id_confidence f; id f; is_facing f].

(** The bytes of one record, as [struct.pack] lays them out. *)
Definition face_bytes (f : PersonSensorFace) : list byte :=
  map Struct.byte_of_Z (tuple_of_face f).

Definition u8 (v : Z) : Prop := 0 <= v <= 255.
Definition i8 (v : Z) : Prop := -128 <= v <= 127.

Definition face_ok (f : PersonSensorFace) : Prop :=
  u8 (box_confidence f) /\ u8 (box_left f) /\ u8 (box_top f)
  /\ u8 (box_right f) /\ u8 (box_bottom f) /\ u8 (id_confidence f)
  /\ i8 (id f) /\ u8 (is_facing f).

Definition empty_slot : PersonSensorFace := mkPersonSensorFace 0 0 0 0 0 0 0 0.

(** Modelled from the spec: the synthetic frame of the round-trip
    property.  The source has no encoder; this is [struct.pack] over the
    source's own [PERSON_SENSOR_RESULT_FORMAT], the records in the first
    slots and the unused slots zeroed. *)
Definition encode_frame (pad1 pad2 payload_bytes : Z)
           (faces : list PersonSensorFace) (checksum : Z)
  : result (list byte) :=
  let slots :=
    faces ++ repeat empty_slot (PERSON_SENSOR_FACE_MAX - length faces) in
  Struct.pack PERSON_SENSOR_RESULT_FORMAT
    ([pad1; pad2; payload_bytes; Z.of_nat (length faces)]
       ++ flat_map tuple_of_face slots ++ [checksum]).

(** The reading of "last_read is updated to the read-start timestamp":
    the call adds one block read to the trace, initiated at the value
    [last_read] has when the call is over. *)
Definition last_read_is_read_start (env : Env) (s : State) : Prop :=
  let s' := snd (get_faces env s) in
  read_times (trace (world s'))
  = read_times (trace (world s)) ++ [last_read (self s')].

(** ** Concrete frames and schedules *)

(** A frame of the full size that announces no face: bytes 5-6, the start
    of the first face slot, hold 0x1234, and bytes 37-38, where the fixed
    layout has the checksum, hold 0xabcd. *)
Definition frame_no_face : list byte :=
  [x00; x00; x24; x00] ++ [x00]
    ++ [x34; x12] ++ repeat x00 30
    ++ [xcd; xab; x00].

(** A frame of the full size that announces five faces. *)
Definition frame_five_faces : list byte :=
  [x00; x00; x24; x00] ++ [x05] ++ repeat x00 35.

(** A frame of the full size with one face, whose id byte is 0xff. *)
Definition frame_one_face : list byte :=
  [x00; x00; x24; x00] ++ [x01]
    ++ [x63; x0a; x14; x1e; x28; x00; xff; x01]
    ++ repeat x00 27.

(** Seven bytes: a header, a zero count and two more bytes. *)
Definition short_frame : list byte := repeat x00 7.

(** A device that sends a frame without faces, and sleeps that end on
    time. *)
Definition quiet_env : Env := mkEnv 0 frame_no_face.

(** A device that sends a frame announcing five faces. *)
Definition garbled_env : Env := mkEnv 0 frame_five_faces.

(** A first call 1000 ms after the instance was created, and a second one
    1 ms after the first returned. *)
Definition burst_first_call : Call := mkCall 1000 quiet_env.
Definition burst_second_call : Call := mkCall 1 quiet_env.

(** ** The register commands *)

Definition _REG_ADDR_ENABLE_ID : Z := 0x02.
Definition _REG_ADDR_TRIGGER_SINGLE_SHOT : Z := 0x03.
Definition _REG_ADDR_LABEL_ID : Z := 0x04.
Definition _REG_ADDR_PERSIST_IDS : Z := 0x05.
Definition _REG_ADDR_ERASE_IDS : Z := 0x06.
Definition _REG_ADDR_DEBUG_MODE : Z := 0x07.

(** [PersonSensor.enable_debug_mode]; [enable] is the truth value of the
    argument. *)
Definition enable_debug_mode (enable : bool) : M unit :=
  let enable_byte := if enable then 0x01 else 0x00 in
  data <- lift (bytes [_REG_ADDR_DEBUG_MODE; enable_byte]) ;;
  _write data.

(** [PersonSensor.enable_id] *)
Definition enable_id (enable : bool) : M unit :=
  let enable_byte := if enable then 0x01 else 0x00 in
  data <- lift (bytes [_REG_ADDR_ENABLE_ID; enable_byte]) ;;
  _write data.

(** [PersonSensor.trigger_single_shot] *)
Definition trigger_single_shot : M unit :=
  data <- lift (bytes [_REG_ADDR_TRIGGER_SINGLE_SHOT; 0x00]) ;;
  _write data.

(** [PersonSensor.label_next_id]; the message is the f-string of the
    source with [PERSON_SENSOR_NUM_IDS - 1] printed. *)
Definition label_next_id (id : Z) : M unit :=
  if (id <? 0) || (id >=? PERSON_SENSOR_NUM_IDS)
  then raise (ValueError "id must be between 0 and 7")
  else
    data <- lift (bytes [_REG_ADDR_LABEL_ID; id]) ;;
    _write data.

(** [PersonSensor.set_persist_ids] *)
Definition set_persist_ids (persist : bool) : M unit :=
  let persist_byte := if persist then 0x01 else 0x00 in
  data <- lift (bytes [_REG_ADDR_PERSIST_IDS; persist_byte]) ;;
  _write data.

(** [PersonSensor.erase_ids] *)
Definition erase_ids : M unit :=
  data <- lift (bytes [_REG_ADDR_ERASE_IDS; 0x00]) ;;
  _write data.

(** A call of one of the seven command methods, with its argument. *)
Inductive command : Type :=
| EnableDebugMode (enable : bool)
| EnableId (enable : bool)
| SetMode (mode : Z)
| TriggerSingleShot
| LabelNextId (id : Z)
| SetPersistIds (persist : bool)
| EraseIds.

Definition exec (c : command) : M unit :=
  match c with
  | EnableDebugMode enable => enable_debug_mode enable
  | EnableId enable => enable_id enable
  | SetMode mode => set_mode mode
  | TriggerSingleShot => trigger_single_shot
  | LabelNextId id => label_next_id id
  | SetPersistIds persist => set_persist_ids persist
  | EraseIds => erase_ids
  end.

(** Commands issued one after the other by a caller that carries on
    after an exception. *)
Definition run_commands (cmds : list command) (s : State) : State :=
  fold_left (fun st c => snd (exec c st)) cmds s.

Definition byte_value (x : byte) : Z := Z.of_N (Byte.to_N x).

(** The two bytes a command puts on the bus when it does not raise. *)
Definition wire (c : command) : list byte :=
  match c with
  | EnableDebugMode enable => [x07; if enable then x01 else x00]
  | EnableId enable => [x02; if enable then x01 else x00]
  | SetMode mode => [x01; Struct.byte_of_Z mode]
  | TriggerSingleShot => [x03; x00]
  | LabelNextId id => [x04; Struct.byte_of_Z id]
  | SetPersistIds persist => [x05; if persist then x01 else x00]
  | EraseIds => [x06; x00]
  end.

(** A bus event that is a two-byte write to [addr]: a register from 0x01
    to 0x07 and an argument from 0 to 7. *)
Definition is_register_write (addr : Z) (ev : Z * event) : Prop :=
  match snd ev with
  | WriteTo a [reg; arg] =>
      a = addr /\ 1 <= byte_value reg <= 7 /\ 0 <= byte_value arg <= 7
  | _ => False
  end.

(** ** Measures of a run of [get_faces] calls *)

(** The time at which the most recent block read was initiated. *)
Definition read_time_of (st : State) : Z :=
  last (read_times (trace (world st))) 0.

(** [n] instants, [PERSON_SENSOR_DELAY] apart, the first one
    [PERSON_SENSOR_DELAY] after [base]. *)
Fixpoint every_delay (base : Z) (n : nat) : list Z :=
  match n with
  | O => []
  | S n' =>
      base + PERSON_SENSOR_DELAY
        :: every_delay (base + PERSON_SENSOR_DELAY) n'
  end.

(** The frame [get_faces] finds in its buffer after the block read. *)
Definition frame_read (env : Env) : list byte :=
  fill PERSON_SENSOR_RESULT_BYTE_COUNT (device_data env).

(** ** A bus whose block read may fail *)

(** What becomes of one block read: the bytes the device sends are
    delivered, or the transfer fails and [machine.I2C.readfrom_into]
    raises [OSError] with an error number. *)
Inductive Transfer : Type :=
| Delivered
| Failed (errno : Z).

Record BusEnv : Type := mkBusEnv {
  bus_env : Env;
  transfer : Transfer
}.

(** [self.i2c.readfrom_into(self.address, self.buffer)] on such a bus; a
    transfer that fails leaves the buffer as it was. *)
Definition readfrom_into_bus (b : BusEnv) : M unit :=
  match transfer b with
  | Delivered => readfrom_into (bus_env b)
  | Failed errno =>
      fun s =>
        let o := self s in
        let n := match buffer o with Some x => length x | None => O end in
        (Raise (OSError errno),
         mkState o (log (ReadFromInto (address o) n) (world s)))
  end.

(** [PersonSensor.get_faces] on such a bus. *)
Definition get_faces_bus (b : BusEnv) : M (list PersonSensorFace) :=
  set_buffer (bytearray PERSON_SENSOR_RESULT_BYTE_COUNT) ;;
  auto <- get_self auto_delay ;;
  (if auto : bool
   then
     now <- ticks_ms ;;
     last <- get_self last_read ;;
     let delta := now - last in
     let delay := PERSON_SENSOR_DELAY - delta in
     (if delta <? PERSON_SENSOR_DELAY
      then sleep (bus_env b) delay
      else ret tt) ;;
     set_last_read (now + delay)
   else ret tt) ;;
  readfrom_into_bus b ;;
  buf <- get_self buffer ;;
  u <- lift (unpack_buffer (match buf with Some x => x | None => [] end)) ;;
  set_last_checksum (u_checksum u) ;;
  ret (u_faces u).

(** * Properties *)

Example calcsize_header : PERSON_SENSOR_I2C_HEADER_BYTE_COUNT = 4%nat.
Proof. reflexivity. Qed.

Example calcsize_face : PERSON_SENSOR_FACE_BYTE_COUNT = 8%nat.
Proof. reflexivity. Qed.

Example calcsize_result : PERSON_SENSOR_RESULT_BYTE_COUNT = 40%nat.
Proof. reflexivity. Qed.

Example fixed_checksum_offset_37 : fixed_checksum_offset = 37%nat.
Proof. reflexivity. Qed.

(** ** Bytes *)

Lemma byte_at_range (buf : list byte) (p : nat) :
  u8 (Struct.byte_at buf p).
Proof.
  unfold u8, Struct.byte_at.
  pose proof (Byte.to_N_bounded (nth p buf x00)). lia.
Qed.

Lemma byte_at_byte_of_Z (v : Z) (pre post : list byte) :
  Struct.byte_at (pre ++ Struct.byte_of_Z v :: post) (length pre) = v mod 256.
Proof.
  unfold Struct.byte_at.
  rewrite nth_middle.
  unfold Struct.byte_of_Z.
  assert (Hr : 0 <= v mod 256 < 256) by (apply Z.mod_pos_bound; lia).
  destruct (Byte.of_N (Z.to_N (v mod 256))) as [x|] eqn:E.
  - apply Byte.to_of_N in E. rewrite E. lia.
  - apply Byte.of_N_None_iff in E. lia.
Qed.

Lemma to_Z_byte_of_Z (v : Z) :
  Z.of_N (Byte.to_N (Struct.byte_of_Z v)) = v mod 256.
Proof. exact (byte_at_byte_of_Z v [] []). Qed.

Lemma signed_roundtrip (v : Z) :
  i8 v ->
  (if v mod 256 <? 128 then v mod 256 else v mod 256 - 256) = v.
Proof.
  unfold i8. intros Hv.
  destruct (Z_lt_le_dec v 0) as [Hneg|Hpos].
  - replace (v mod 256) with (v + 256).
    + destruct (Z.ltb_spec (v + 256) 128); lia.
    + apply Z.mod_unique with (q := -1); lia.
  - rewrite Z.mod_small by lia.
    destruct (Z.ltb_spec v 128); lia.
Qed.

(** ** The unpacking, characterised *)

Section Unpacking.

Local Open Scope nat_scope.

Variable buffer : list byte.

Lemma unpack_from_fits (fmt : list Struct.code) (offset : nat) :
  offset + Struct.calcsize fmt <= length buffer ->
  Struct.unpack_from fmt buffer offset
  = Ok (Struct.unpack_items buffer offset 0 fmt).
Proof.
  intros H. unfold Struct.unpack_from.
  destruct (Nat.leb_spec (offset + Struct.calcsize fmt) (length buffer));
    [reflexivity | lia].
Qed.

Lemma unpack_from_short (fmt : list Struct.code) (offset : nat) :
  length buffer < offset + Struct.calcsize fmt ->
  Struct.unpack_from fmt buffer offset = Raise Struct.buffer_too_small.
Proof.
  intros H. unfold Struct.unpack_from.
  destruct (Nat.leb_spec (offset + Struct.calcsize fmt) (length buffer));
    [lia | reflexivity].
Qed.

(** One face record: the tuple unpacked at [offset] builds [face_at]. *)
Lemma unpack_face (offset : nat) :
  offset + 8 <= length buffer ->
  rbind (Struct.unpack_from PERSON_SENSOR_FACE_FORMAT buffer offset)
        PersonSensorFace_of_tuple
  = Ok (face_at buffer offset).
Proof.
  intros H. rewrite unpack_from_fits by exact H.
  cbn. unfold face_at. rewrite Nat.add_0_r. reflexivity.
Qed.

(** The loop succeeds exactly when all [n] records fit. *)
Lemma unpack_faces_fits (n offset : nat) (faces : list PersonSensorFace) :
  offset + 8 * n <= length buffer ->
  unpack_faces buffer n offset faces
  = Ok (faces ++ faces_at buffer offset n, offset + 8 * n).
Proof.
  revert offset faces.
  induction n as [|n IH]; intros offset faces H.
  - cbn. now rewrite app_nil_r, Nat.add_0_r.
  - cbn [unpack_faces].
    pose proof (unpack_face offset ltac:(lia)) as Hf.
    destruct (Struct.unpack_from PERSON_SENSOR_FACE_FORMAT buffer offset)
      as [t|e]; [|discriminate].
    cbn [rbind] in Hf |- *. rewrite Hf. cbn [rbind].
    change PERSON_SENSOR_FACE_BYTE_COUNT with 8.
    rewrite IH by lia.
    unfold faces_at. rewrite <- app_assoc. cbn [seq map app].
    rewrite Nat.mul_0_r, Nat.add_0_r.
    rewrite <- seq_shift, map_map.
    replace (offset + 8 * S n) with (offset + 8 + 8 * n) by lia.
    do 4 f_equal.
    apply map_ext. intros k. f_equal. lia.
Qed.

Lemma unpack_faces_short (n offset : nat) (faces : list PersonSensorFace) :
  offset <= length buffer ->
  length buffer < offset + 8 * n ->
  unpack_faces buffer n offset faces = Raise Struct.buffer_too_small.
Proof.
  revert offset faces.
  induction n as [|n IH]; intros offset faces Hin H.
  - lia.
  - cbn [unpack_faces].
    destruct (le_lt_dec (offset + 8) (length buffer)) as [Hfit|Hshort].
    + pose proof (unpack_face offset Hfit) as Hf.
      destruct (Struct.unpack_from PERSON_SENSOR_FACE_FORMAT buffer offset)
        as [t|e]; [|discriminate].
      cbn [rbind] in Hf |- *. rewrite Hf. cbn [rbind].
      change PERSON_SENSOR_FACE_BYTE_COUNT with 8.
      apply IH; lia.
    + rewrite unpack_from_short by (exact Hshort). reflexivity.
Qed.

(** A buffer that holds the header, the count byte, the announced
    records and two more bytes unpacks; the checksum is read right
    after the last announced record. *)
Lemma unpack_buffer_fits :
  7 + 8 * num_faces_of buffer <= length buffer ->
  unpack_buffer buffer
  = Ok (mkUnpacked
          (faces_at buffer 5 (num_faces_of buffer))
          (Struct.get_val Struct.fH buffer (5 + 8 * num_faces_of buffer))
          (5 + 8 * num_faces_of buffer)).
Proof.
  intros H. unfold unpack_buffer.
  change PERSON_SENSOR_I2C_HEADER_BYTE_COUNT with 4.
  rewrite unpack_from_fits by (cbn; lia).
  cbn [rbind Struct.unpack_items hd Struct.get_val Struct.size].
  change (0 + 4 + Struct.align 0 1) with 4.
  change (Z.to_nat (Struct.byte_at buffer 4)) with (num_faces_of buffer).
  change (0 + 4 + 1) with 5.
  rewrite unpack_faces_fits by lia.
  cbn [rbind app].
  rewrite unpack_from_fits by (cbn; lia).
  cbn [rbind Struct.unpack_items hd Struct.get_val Struct.size].
  change (Struct.align 0 2) with 0.
  now rewrite !Nat.add_0_r.
Qed.

(** Any shorter buffer raises the buffer-too-small error. *)
Lemma unpack_buffer_short :
  length buffer < 7 + 8 * num_faces_of buffer ->
  unpack_buffer buffer = Raise Struct.buffer_too_small.
Proof.
  intros H. unfold unpack_buffer.
  change PERSON_SENSOR_I2C_HEADER_BYTE_COUNT with 4.
  destruct (le_lt_dec 5 (length buffer)) as [H5|H5].
  - rewrite unpack_from_fits by (cbn; lia).
    cbn [rbind Struct.unpack_items hd Struct.get_val Struct.size].
    change (0 + 4 + Struct.align 0 1) with 4.
    change (Z.to_nat (Struct.byte_at buffer 4)) with (num_faces_of buffer).
    change (0 + 4 + 1) with 5.
    destruct (le_lt_dec (5 + 8 * num_faces_of buffer) (length buffer))
      as [Hfit|Hshort].
    + rewrite unpack_faces_fits by lia.
      cbn [rbind app].
      rewrite unpack_from_short by (cbn; lia). reflexivity.
    + rewrite unpack_faces_short by lia. reflexivity.
  - rewrite unpack_from_short by (cbn; lia). reflexivity.
Qed.

End Unpacking.

(** ** Packed records *)

Section Packed.

Local Open Scope nat_scope.

Lemma byte_at_app (pre l : list byte) (k : nat) :
  Struct.byte_at (pre ++ l) (length pre + k) = Struct.byte_at l k.
Proof. unfold Struct.byte_at. now rewrite app_nth2_plus. Qed.

Lemma u8_mod (v : Z) : u8 v -> (v mod 256)%Z = v.
Proof. unfold u8. intros H. apply Z.mod_small. lia. Qed.

Lemma face_bytes_length (f : PersonSensorFace) : length (face_bytes f) = 8.
Proof. reflexivity. Qed.

Lemma face_at_packed (pre post : list byte) (f : PersonSensorFace) :
  face_ok f ->
  face_at (pre ++ face_bytes f ++ post) (length pre) = f.
Proof.
  intros (H0 & H1 & H2 & H3 & H4 & H5 & H6 & H7).
  destruct f as [v0 v1 v2 v3 v4 v5 v6 v7].
  cbn [box_confidence box_left box_top box_right box_bottom
       id_confidence id is_facing] in *.
  unfold face_at, Struct.get_val.
  rewrite <- (Nat.add_0_r (length pre)) at 1.
  rewrite !byte_at_app.
  unfold Struct.byte_at, face_bytes, tuple_of_face.
  cbn [map app nth].
  rewrite !to_Z_byte_of_Z.
  rewrite signed_roundtrip by exact H6.
  now rewrite !u8_mod by assumption.
Qed.

Lemma faces_at_S (buffer : list byte) (offset n : nat) :
  faces_at buffer offset (S n)
  = face_at buffer offset :: faces_at buffer (offset + 8) n.
Proof.
  unfold faces_at. cbn [seq map].
  rewrite Nat.mul_0_r, Nat.add_0_r.
  rewrite <- seq_shift, map_map.
  f_equal. apply map_ext. intros k. f_equal. lia.
Qed.

Lemma faces_at_packed (faces : list PersonSensorFace) :
  forall pre post : list byte,
    Forall face_ok faces ->
    faces_at (pre ++ flat_map face_bytes faces ++ post)
             (length pre) (length faces)
    = faces.
Proof.
  induction faces as [|f faces IH]; intros pre post Hok.
  - reflexivity.
  - inversion Hok as [|? ? Hf Hrest]; subst.
    cbn [length flat_map]. rewrite faces_at_S.
    rewrite <- app_assoc.
    rewrite face_at_packed by exact Hf.
    f_equal.
    specialize (IH (pre ++ face_bytes f) post Hrest).
    rewrite <- app_assoc in IH.
    rewrite length_app, face_bytes_length in IH.
    exact IH.
Qed.

Lemma flat_map_face_bytes_length (faces : list PersonSensorFace) :
  length (flat_map face_bytes faces) = 8 * length faces.
Proof.
  induction faces as [|f faces IH]; [reflexivity|].
  cbn [flat_map]. rewrite length_app, IH, face_bytes_length.
  cbn [length]. lia.
Qed.

(** Any buffer laid out as four header bytes, the count byte, the
    announced records and at least two more bytes unpacks to those
    records. *)
Lemma unpack_buffer_packed (hdr rest : list byte)
      (faces : list PersonSensorFace) :
  length hdr = 4 ->
  length faces <= 255 ->
  Forall face_ok faces ->
  2 <= length rest ->
  rbind (unpack_buffer
           (hdr ++ Struct.byte_of_Z (Z.of_nat (length faces))
                :: flat_map face_bytes faces ++ rest))
        (fun u => Ok (u_faces u))
  = Ok faces.
Proof.
  intros Hhdr Hn Hok Hrest.
  set (buf := hdr ++ _).
  assert (Hcount : num_faces_of buf = length faces).
  { unfold num_faces_of, buf. rewrite <- Hhdr.
    rewrite byte_at_byte_of_Z, Z.mod_small by lia.
    apply Nat2Z.id. }
  assert (Hlen : length buf = 5 + 8 * length faces + length rest).
  { unfold buf. rewrite length_app. cbn [length].
    rewrite length_app, flat_map_face_bytes_length. lia. }
  rewrite unpack_buffer_fits by lia.
  cbn [rbind u_faces]. rewrite Hcount. f_equal.
  pose proof (faces_at_packed
                (hdr ++ [Struct.byte_of_Z (Z.of_nat (length faces))])
                rest Hok) as H.
  rewrite <- app_assoc in H. cbn [app] in H.
  rewrite length_app, Hhdr in H. cbn [length Nat.add] in H.
  exact H.
Qed.

End Packed.

(** ** The frame decoder *)

(** C2 (the code departs from the claim): on a 40-byte frame that
    announces no face, the checksum the code keeps is the 16-bit value at
    offset 5, the running offset after zero records, and not the one at
    the fixed offset 37 of the layout that
    [PERSON_SENSOR_RESULT_FORMAT] declares. *)
Theorem C2_checksum_read_at_running_offset :
  length frame_no_face = PERSON_SENSOR_RESULT_BYTE_COUNT
  /\ num_faces_of frame_no_face = 0%nat
  /\ unpack_buffer frame_no_face = Ok (mkUnpacked [] 0x1234 5)
  /\ Struct.get_val Struct.fH frame_no_face fixed_checksum_offset = 0xabcd.
Proof. repeat split. Qed.

(** C3, as stated, fails: a 40-byte frame announcing five faces is not
    rejected with [InvalidCount]; it fails with the buffer-too-small
    error. *)
Lemma C3_counterexample :
  length frame_five_faces = PERSON_SENSOR_RESULT_BYTE_COUNT
  /\ num_faces_of frame_five_faces = 5%nat
  /\ decode_error (unpack_buffer frame_five_faces) <> Some InvalidCount.
Proof. repeat split. vm_compute. discriminate. Qed.

(** C3 (amended): every buffer of at most the frame size whose face-count
    byte is 5 or more fails to decode, regardless of the other bytes; the
    failure is the buffer-too-small error ([Truncated]) of the record
    that no longer fits, there being no check of the count itself. *)
Theorem C3_count_over_max_raises (buffer : list byte) :
  (length buffer <= PERSON_SENSOR_RESULT_BYTE_COUNT)%nat ->
  (5 <= num_faces_of buffer)%nat ->
  unpack_buffer buffer = Raise Struct.buffer_too_small
  /\ decode_error (unpack_buffer buffer) = Some Truncated.
Proof.
  intros Hlen Hcount.
  change PERSON_SENSOR_RESULT_BYTE_COUNT with 40%nat in Hlen.
  assert (H : unpack_buffer buffer = Raise Struct.buffer_too_small)
    by (apply unpack_buffer_short; lia).
  rewrite H. split; reflexivity.
Qed.

Lemma C3_count_over_max_raises_witness :
  unpack_buffer frame_five_faces = Raise Struct.buffer_too_small
  /\ decode_error (unpack_buffer frame_five_faces) = Some Truncated.
Proof.
  apply (C3_count_over_max_raises frame_five_faces).
  - vm_compute. lia.
  - vm_compute. lia.
Defined.

(** C4: for every list of at most four records with byte-sized field
    values, the synthetic frame packed in the layout of
    [PERSON_SENSOR_RESULT_FORMAT] has the full frame size and decodes to
    exactly those records, in order and in number; and every buffer that
    announces no face and holds the header, the count byte and two more
    bytes decodes to the empty list. *)
Theorem C4_encode_decode_roundtrip :
  (forall (pad1 pad2 payload_bytes checksum : Z)
          (faces : list PersonSensorFace),
      (length faces <= PERSON_SENSOR_FACE_MAX)%nat ->
      Forall face_ok faces ->
      exists buffer,
        encode_frame pad1 pad2 payload_bytes faces checksum = Ok buffer
        /\ length buffer = PERSON_SENSOR_RESULT_BYTE_COUNT
        /\ rbind (unpack_buffer buffer) (fun u => Ok (u_faces u)) = Ok faces)
  /\ (forall buffer : list byte,
         (7 <= length buffer)%nat ->
         num_faces_of buffer = 0%nat ->
         rbind (unpack_buffer buffer) (fun u => Ok (u_faces u)) = Ok []).
Proof.
  split.
  - intros pad1 pad2 payload_bytes checksum faces Hlen Hok.
    change PERSON_SENSOR_FACE_MAX with 4%nat in Hlen.
    set (hdr := [Struct.byte_of_Z pad1; Struct.byte_of_Z pad2;
                 Struct.byte_of_Z payload_bytes;
                 Struct.byte_of_Z (payload_bytes / 256)]).
    set (rest := flat_map face_bytes
                          (repeat empty_slot (4 - length faces))
                 ++ [x00; Struct.byte_of_Z checksum;
                     Struct.byte_of_Z (checksum / 256)]).
    exists (hdr ++ Struct.byte_of_Z (Z.of_nat (length faces))
                :: flat_map face_bytes faces ++ rest).
    assert (Hrest : (length rest = 8 * (4 - length faces) + 3)%nat).
    { unfold rest. rewrite length_app, flat_map_face_bytes_length, repeat_length.
      reflexivity. }
    split; [|split].
    + destruct faces as [|f1 [|f2 [|f3 [|f4 [|f5 faces]]]]];
        [reflexivity .. | cbn [length] in Hlen; lia].
    + rewrite length_app. cbn [length].
      rewrite length_app, flat_map_face_bytes_length, Hrest.
      change PERSON_SENSOR_RESULT_BYTE_COUNT with 40%nat.
      cbn [hdr length]. lia.
    + apply unpack_buffer_packed; [reflexivity | lia | exact Hok | lia].
  - intros buffer Hlen Hcount.
    rewrite unpack_buffer_fits by lia.
    rewrite Hcount. reflexivity.
Qed.

Lemma C4_encode_decode_roundtrip_witness :
  (exists buffer,
      encode_frame 0 0 36 [face_at frame_one_face 5] 0 = Ok buffer
      /\ length buffer = PERSON_SENSOR_RESULT_BYTE_COUNT
      /\ rbind (unpack_buffer buffer) (fun u => Ok (u_faces u))
         = Ok [face_at frame_one_face 5])
  /\ rbind (unpack_buffer short_frame) (fun u => Ok (u_faces u)) = Ok [].
Proof.
  split.
  - apply (proj1 C4_encode_decode_roundtrip 0 0 36 0 [face_at frame_one_face 5]).
    + vm_compute. lia.
    + constructor; [|constructor].
      vm_compute. repeat split; intro H; discriminate H.
  - apply (proj2 C4_encode_decode_roundtrip short_frame).
    + vm_compute. lia.
    + reflexivity.
Defined.

(** C9: in every decoded record the seventh field, [id], is the signed
    reading of its raw byte (the byte itself below 128, the byte minus 256
    from 128 on, so 0xff is -1), and each of the other seven fields is the
    unsigned value of its raw byte. *)
Theorem C9_id_signed_others_unsigned
        (buffer : list byte) (u : Unpacked) (k : nat)
        (face : PersonSensorFace) :
  unpack_buffer buffer = Ok u ->
  nth_error (u_faces u) k = Some face ->
  let raw := fun i : nat => Struct.byte_at buffer (5 + 8 * k + i) in
  tuple_of_face face
  = [raw 0%nat; raw 1%nat; raw 2%nat; raw 3%nat; raw 4%nat; raw 5%nat;
     id face; raw 7%nat]
  /\ (forall i : nat, u8 (raw i))
  /\ (raw 6%nat < 128 -> id face = raw 6%nat)
  /\ (128 <= raw 6%nat -> id face = raw 6%nat - 256)
  /\ (raw 6%nat = 0xff -> id face = -1)
  /\ i8 (id face).
Proof.
  intros Hu Hk raw.
  destruct (le_lt_dec (7 + 8 * num_faces_of buffer) (length buffer))
    as [Hfit|Hshort].
  - rewrite unpack_buffer_fits in Hu by exact Hfit.
    injection Hu as <-. cbn [u_faces] in Hk.
    unfold faces_at in Hk.
    rewrite nth_error_map in Hk.
    rewrite nth_error_seq in Hk.
    destruct (Nat.ltb k (num_faces_of buffer)); [|discriminate].
    cbn [option_map] in Hk. rewrite Nat.add_0_l in Hk.
    assert (Hface : face = face_at buffer (5 + 8 * k)) by congruence.
    subst face. clear Hk.
    unfold face_at, tuple_of_face, Struct.get_val.
    cbn [box_confidence box_left box_top box_right box_bottom
         id_confidence id is_facing].
    subst raw. cbv beta.
    replace (5 + 8 * k + 0)%nat with (5 + 8 * k)%nat by lia.
    pose proof (byte_at_range buffer (5 + 8 * k + 6)) as H6.
    unfold u8 in H6.
    split; [reflexivity|].
    split; [intros i; apply byte_at_range|].
    unfold i8.
    destruct (Z.ltb_spec (Struct.byte_at buffer (5 + 8 * k + 6)) 128);
      repeat split; intros; lia.
  - rewrite unpack_buffer_short in Hu by exact Hshort. discriminate.
Qed.

Lemma C9_id_signed_others_unsigned_witness :
  id (face_at frame_one_face 5) = -1
  /\ tuple_of_face (face_at frame_one_face 5)
     = [0x63; 0x0a; 0x14; 0x1e; 0x28; 0x00; -1; 0x01].
Proof.
  assert (Hu : unpack_buffer frame_one_face
               = Ok (mkUnpacked [face_at frame_one_face 5] 0 13))
    by reflexivity.
  assert (Hk : nth_error
                 (u_faces (mkUnpacked [face_at frame_one_face 5] 0 13)) 0
               = Some (face_at frame_one_face 5))
    by reflexivity.
  pose proof (C9_id_signed_others_unsigned frame_one_face 0 Hu Hk) as H.
  cbv zeta in H.
  destruct H as (Ht & _ & _ & _ & Hff & _).
  split.
  - apply Hff. reflexivity.
  - rewrite Ht. rewrite (Hff eq_refl). reflexivity.
Defined.

(** ** The poll scheduler *)

Ltac step_get_faces :=
  unfold get_faces, bind, set_buffer, get_self, ticks_ms, sleep,
    set_last_read, readfrom_into, lift, ret, set_last_checksum;
  cbv beta zeta;
  cbn [self world auto_delay address buffer last_read last_checksum fst snd].

Ltac solve_get_faces :=
  unfold bytearray; rewrite repeat_length;
  destruct (unpack_buffer _); reflexivity.

(** What one call does to the world: it sleeps first exactly when
    [auto_delay] is set and less than [PERSON_SENSOR_DELAY] has passed
    since [last_read], and then reads the full frame. *)
Lemma get_faces_world (env : Env) (s : State) :
  world (snd (get_faces env s))
  = if auto_delay (self s)
       && (clock (world s) - last_read (self s) <? PERSON_SENSOR_DELAY)
    then
      let delay :=
        PERSON_SENSOR_DELAY - (clock (world s) - last_read (self s)) in
      log (ReadFromInto (address (self s)) PERSON_SENSOR_RESULT_BYTE_COUNT)
          (advance (delay + oversleep env) (log (Sleep delay) (world s)))
    else
      log (ReadFromInto (address (self s)) PERSON_SENSOR_RESULT_BYTE_COUNT)
          (world s).
Proof.
  destruct s as [[ad addr buf lr ck] w].
  step_get_faces.
  destruct ad; cbn [andb]; step_get_faces.
  - destruct (clock w - lr <? PERSON_SENSOR_DELAY); step_get_faces;
      solve_get_faces.
  - solve_get_faces.
Qed.

(** What one call does to [last_read], whatever the device sends. *)
Lemma get_faces_last_read (env : Env) (s : State) :
  last_read (self (snd (get_faces env s)))
  = if auto_delay (self s)
    then clock (world s)
         + (PERSON_SENSOR_DELAY - (clock (world s) - last_read (self s)))
    else last_read (self s).
Proof.
  destruct s as [[ad addr buf lr ck] w].
  step_get_faces.
  destruct ad; step_get_faces.
  - destruct (clock w - lr <? PERSON_SENSOR_DELAY); step_get_faces;
      solve_get_faces.
  - solve_get_faces.
Qed.

(** The value returned, or the exception raised, is that of unpacking
    what the device sent. *)
Lemma get_faces_result (env : Env) (s : State) :
  fst (get_faces env s)
  = rbind (unpack_buffer (fill PERSON_SENSOR_RESULT_BYTE_COUNT
                               (device_data env)))
          (fun u => Ok (u_faces u)).
Proof.
  destruct s as [[ad addr buf lr ck] w].
  step_get_faces.
  destruct ad; step_get_faces.
  - destruct (clock w - lr <? PERSON_SENSOR_DELAY); step_get_faces;
      solve_get_faces.
  - solve_get_faces.
Qed.

Lemma read_times_app (tr tr' : list (Z * event)) :
  read_times (tr ++ tr') = read_times tr ++ read_times tr'.
Proof.
  induction tr as [|[t [ms|addr data|addr n]] tr IH]; cbn; now rewrite ?IH.
Qed.

Lemma sleeps_app (tr tr' : list (Z * event)) :
  sleeps (tr ++ tr') = sleeps tr ++ sleeps tr'.
Proof.
  induction tr as [|[t [ms|addr data|addr n]] tr IH]; cbn; now rewrite ?IH.
Qed.

(** Calls made back to back from the moment the instance is created are
    held to the floor: the reads start at 200, 400 and 600. *)
Example back_to_back_calls_are_spaced :
  let s0 := PersonSensor_init true PERSON_SENSOR_I2C_ADDRESS (mkWorld 0 []) in
  let w := world (final [mkCall 0 quiet_env; mkCall 50 quiet_env;
                         mkCall 1 quiet_env] s0) in
  read_times (trace w) = [200; 400; 600]
  /\ sleeps (trace w) = [200; 150; 199]
  /\ spaced PERSON_SENSOR_DELAY (read_times (trace w)) = true.
Proof. repeat split. Qed.

(** A call that has to wait, with a sleep that ends on time, starts its
    read at the value it gave [last_read]. *)
Example waiting_call_reads_at_last_read :
  last_read_is_read_start
    quiet_env
    (pass 50 (PersonSensor_init true PERSON_SENSOR_I2C_ADDRESS (mkWorld 0 []))).
Proof. reflexivity. Qed.

(** C1 (the code departs from the claim): an instance with [auto_delay]
    set is created when the counter reads 0; a first [get_faces] is made
    1000 ms later and a second one 1 ms after the first returns.  Neither
    call sleeps and the two block reads are initiated at 1000 and at
    1001, one millisecond apart. *)
Theorem C1_reads_one_ms_apart :
  let s0 := PersonSensor_init true PERSON_SENSOR_I2C_ADDRESS (mkWorld 0 []) in
  let w := world (final [burst_first_call; burst_second_call] s0) in
  read_times (trace w) = [1000; 1001]
  /\ sleeps (trace w) = []
  /\ spaced PERSON_SENSOR_DELAY (read_times (trace w)) = false.
Proof. repeat split. Qed.

(** C5, as stated, fails: with [auto_delay] off, a call made when the
    counter reads 1000 starts its read at 1000 and leaves [last_read] at
    0, the value it had since the constructor. *)
Lemma C5_counterexample :
  let s := pass 1000 (PersonSensor_init false PERSON_SENSOR_I2C_ADDRESS
                                       (mkWorld 0 [])) in
  ~ last_read_is_read_start quiet_env s.
Proof. intros s H. vm_compute in H. discriminate H. Qed.

(** C5 (amended): with [auto_delay] on, a [get_faces] that has to wait
    (less than 200 ms since [last_read]) sets [last_read], before the bus
    read and whether the decoding that follows succeeds or raises, to
    [now + delay], the moment the requested wait ends, and the read starts
    there, later only by what the sleep overshoots; what [last_read]
    becomes never depends on what the device sends.  With [auto_delay]
    off, [get_faces] leaves [last_read] as it was. *)
Theorem C5_last_read_set_before_decode (env : Env) (s : State) :
  let s' := snd (get_faces env s) in
  let now := clock (world s) in
  let delay := PERSON_SENSOR_DELAY - (now - last_read (self s)) in
  (auto_delay (self s) = true ->
   now - last_read (self s) < PERSON_SENSOR_DELAY ->
   last_read (self s') = now + delay
   /\ read_times (trace (world s'))
      = read_times (trace (world s))
          ++ [last_read (self s') + oversleep env])
  /\ (forall env' : Env,
         last_read (self (snd (get_faces env' s))) = last_read (self s'))
  /\ (auto_delay (self s) = false ->
      last_read (self s') = last_read (self s)).
Proof.
  intros s' now delay. subst s'.
  rewrite get_faces_last_read, get_faces_world.
  split; [|split].
  - intros Hauto Hwait. rewrite Hauto. split; [reflexivity|].
    cbn [andb].
    destruct (Z.ltb_spec (clock (world s) - last_read (self s))
                         PERSON_SENSOR_DELAY) as [_|Hge]; [|lia].
    unfold log, advance. cbn [trace clock].
    rewrite !read_times_app. cbn [read_times app].
    rewrite app_nil_r. subst now delay. do 2 f_equal. lia.
  - intros env'. now rewrite get_faces_last_read.
  - intros Hauto. rewrite Hauto. reflexivity.
Qed.

Lemma C5_last_read_set_before_decode_witness :
  let s := pass 50 (PersonSensor_init true PERSON_SENSOR_I2C_ADDRESS
                                      (mkWorld 0 [])) in
  fst (get_faces garbled_env s) = Raise Struct.buffer_too_small
  /\ last_read (self (snd (get_faces garbled_env s))) = 200
  /\ read_times (trace (world (snd (get_faces garbled_env s)))) = [200]
  /\ last_read (self (snd (get_faces quiet_env
                             (PersonSensor_init false 0 (mkWorld 7 [])))))
     = 7.
Proof.
  intros s.
  destruct (C5_last_read_set_before_decode garbled_env s) as [Hon _].
  destruct (C5_last_read_set_before_decode
              quiet_env (PersonSensor_init false 0 (mkWorld 7 [])))
    as (_ & _ & Hoff).
  assert (Hwait : clock (world s) - last_read (self s) < PERSON_SENSOR_DELAY)
    by (vm_compute; reflexivity).
  destruct (Hon eq_refl Hwait) as [Hlast Hread].
  split; [reflexivity|].
  split; [rewrite Hlast; reflexivity|].
  split.
  - rewrite Hread. reflexivity.
  - rewrite Hoff; reflexivity.
Defined.

(** One call never moves [last_read] backwards. *)
Lemma call_last_read_le (c : Call) (s : State) :
  last_read (self s) <= last_read (self (snd (call c s))).
Proof.
  unfold call. rewrite get_faces_last_read.
  unfold pass. cbn [self world].
  destruct (auto_delay (self s)); unfold PERSON_SENSOR_DELAY; lia.
Qed.

(** C7: over every sequence of successive [get_faces] calls on one
    instance, whatever time passes between them and whatever the device
    sends, the values [last_read] takes, from the one the constructor set
    on, never decrease. *)
Theorem C7_last_read_monotone (calls : list Call) (s : State) :
  Sorted Z.le (last_read (self s)
                 :: map (fun st => last_read (self st)) (run calls s)).
Proof.
  revert s.
  induction calls as [|c calls IH]; intros s.
  - cbn. repeat constructor.
  - cbn [run map]. constructor.
    + apply IH.
    + constructor. apply call_last_read_le.
Qed.

(** C8: a [get_faces] call with [auto_delay] off, whatever the time since
    the previous call, and a call with at least 200 ms elapsed since
    [last_read], whatever [auto_delay] is, requests no sleep: the counter
    is where it was and the only thing added to the trace is the block
    read, initiated at once. *)
Theorem C8_no_suspension (env : Env) (s : State) :
  auto_delay (self s) = false
  \/ PERSON_SENSOR_DELAY <= clock (world s) - last_read (self s) ->
  let s' := snd (get_faces env s) in
  sleeps (trace (world s')) = sleeps (trace (world s))
  /\ clock (world s') = clock (world s)
  /\ trace (world s')
     = trace (world s)
         ++ [(clock (world s),
              ReadFromInto (address (self s))
                           PERSON_SENSOR_RESULT_BYTE_COUNT)].
Proof.
  intros H s'. subst s'. rewrite get_faces_world.
  assert (Hno : auto_delay (self s)
                && (clock (world s) - last_read (self s)
                    <? PERSON_SENSOR_DELAY) = false).
  { destruct H as [H|H].
    - now rewrite H.
    - apply andb_false_iff. right. apply Z.ltb_ge. exact H. }
  rewrite Hno. unfold log. cbn [trace clock].
  rewrite sleeps_app. cbn [sleeps]. rewrite app_nil_r.
  repeat split.
Qed.

Lemma C8_no_suspension_witness :
  sleeps (trace (world (snd (get_faces quiet_env
            (pass 1 (PersonSensor_init false 0 (mkWorld 0 []))))))) = []
  /\ sleeps (trace (world (snd (get_faces quiet_env
               (pass 200 (PersonSensor_init true 0 (mkWorld 0 []))))))) = [].
Proof.
  split.
  - apply (C8_no_suspension quiet_env
             (pass 1 (PersonSensor_init false 0 (mkWorld 0 [])))).
    left. reflexivity.
  - apply (C8_no_suspension quiet_env
             (pass 200 (PersonSensor_init true 0 (mkWorld 0 [])))).
    right. vm_compute. discriminate.
Defined.

(** ** The mode command *)

(** C10: [set_mode] raises [ValueError] for every mode other than
    [MODE_STANDBY] and [MODE_CONTINUOUS] and then leaves the object and
    the bus untouched; for each of the two modes it makes exactly one bus
    write, of the two bytes 0x01 and the mode, to the device address. *)
Theorem C10_set_mode (mode : Z) (s : State) :
  (mode <> MODE_STANDBY -> mode <> MODE_CONTINUOUS ->
   set_mode mode s
   = (Raise (ValueError "Invalid mode for person sensor"), s))
  /\ set_mode MODE_STANDBY s
     = (Ok tt,
        mkState (self s)
                (mkWorld (clock (world s))
                         (trace (world s)
                            ++ [(clock (world s),
                                 WriteTo (address (self s)) [x01; x00])])))
  /\ set_mode MODE_CONTINUOUS s
     = (Ok tt,
        mkState (self s)
                (mkWorld (clock (world s))
                         (trace (world s)
                            ++ [(clock (world s),
                                 WriteTo (address (self s)) [x01; x01])]))).
Proof.
  split; [|split; reflexivity].
  unfold MODE_STANDBY, MODE_CONTINUOUS. intros H0 H1.
  unfold set_mode, _MODES, MODE_STANDBY, MODE_CONTINUOUS.
  cbn [existsb].
  destruct (Z.eqb_spec mode 0) as [->|_]; [contradiction|].
  destruct (Z.eqb_spec mode 1) as [->|_]; [contradiction|].
  reflexivity.
Qed.

Lemma C10_set_mode_witness :
  set_mode 2 (PersonSensor_init true PERSON_SENSOR_I2C_ADDRESS (mkWorld 0 []))
  = (Raise (ValueError "Invalid mode for person sensor"),
     PersonSensor_init true PERSON_SENSOR_I2C_ADDRESS (mkWorld 0 [])).
Proof.
  apply (C10_set_mode 2
           (PersonSensor_init true PERSON_SENSOR_I2C_ADDRESS (mkWorld 0 []))).
  - vm_compute. discriminate.
  - vm_compute. discriminate.
Defined.

(** ** The register commands *)

Lemma byte_value_byte_of_Z (v : Z) :
  0 <= v < 256 -> byte_value (Struct.byte_of_Z v) = v.
Proof.
  intros Hv. unfold byte_value.
  rewrite to_Z_byte_of_Z. apply Z.mod_small. exact Hv.
Qed.

Lemma bytes_pair (r v : Z) :
  0 <= r < 256 -> 0 <= v < 256 ->
  bytes [r; v] = Ok [Struct.byte_of_Z r; Struct.byte_of_Z v].
Proof.
  intros Hr Hv. cbn [bytes].
  destruct (Z.leb_spec 0 r); [|lia].
  destruct (Z.ltb_spec r 256); [|lia].
  destruct (Z.leb_spec 0 v); [|lia].
  destruct (Z.ltb_spec v 256); [|lia].
  reflexivity.
Qed.

Lemma set_mode_accepts (mode : Z) (s : State) :
  fst (set_mode mode s) = Ok tt -> mode = 0 \/ mode = 1.
Proof.
  unfold set_mode, _MODES, MODE_STANDBY, MODE_CONTINUOUS. cbn [existsb].
  destruct (Z.eqb_spec mode 0) as [->|_]; [now left|].
  destruct (Z.eqb_spec mode 1) as [->|_]; [now right|].
  cbn. discriminate.
Qed.

Lemma label_next_id_accepts (id : Z) (s : State) :
  fst (label_next_id id s) = Ok tt -> 0 <= id < PERSON_SENSOR_NUM_IDS.
Proof.
  unfold label_next_id, PERSON_SENSOR_NUM_IDS.
  destruct (Z.ltb_spec id 0); cbn [orb]; [cbn; discriminate|].
  destruct (Z.geb_spec id 8); [cbn; discriminate|].
  intros _. lia.
Qed.

(** A command that returns has made one bus write, of [wire c], and has
    changed nothing else. *)
Lemma exec_returns (c : command) (s : State) :
  fst (exec c s) = Ok tt ->
  exec c s
  = (Ok tt,
     mkState (self s) (log (WriteTo (address (self s)) (wire c)) (world s))).
Proof.
  destruct c as [e|e|mode| |id|p| ]; cbn [exec wire]; intros Hok.
  - destruct e; reflexivity.
  - destruct e; reflexivity.
  - destruct (set_mode_accepts mode s Hok) as [->| ->]; reflexivity.
  - reflexivity.
  - pose proof (label_next_id_accepts id s Hok) as Hid.
    unfold PERSON_SENSOR_NUM_IDS in Hid.
    unfold label_next_id, PERSON_SENSOR_NUM_IDS.
    destruct (Z.ltb_spec id 0); [lia|].
    destruct (Z.geb_spec id 8); [lia|].
    cbn [orb]. unfold bind, lift, _REG_ADDR_LABEL_ID.
    rewrite bytes_pair by lia. reflexivity.
  - destruct p; reflexivity.
  - reflexivity.
Qed.

(** A command that raises has done nothing. *)
Lemma exec_raises (c : command) (s : State) (e : exn) :
  fst (exec c s) = Raise e -> snd (exec c s) = s.
Proof.
  destruct c as [b|b|mode| |id|p| ]; cbn [exec].
  - destruct b; cbn; discriminate.
  - destruct b; cbn; discriminate.
  - unfold set_mode, _MODES, MODE_STANDBY, MODE_CONTINUOUS. cbn [existsb].
    destruct (Z.eqb_spec mode 0) as [->|_]; [cbn; discriminate|].
    destruct (Z.eqb_spec mode 1) as [->|_]; [cbn; discriminate|].
    reflexivity.
  - cbn; discriminate.
  - unfold label_next_id, PERSON_SENSOR_NUM_IDS.
    destruct (Z.ltb_spec id 0); cbn [orb]; [reflexivity|].
    destruct (Z.geb_spec id 8); [reflexivity|].
    unfold bind, lift, _REG_ADDR_LABEL_ID.
    rewrite bytes_pair by lia. cbn. discriminate.
  - destruct p; cbn; discriminate.
  - cbn; discriminate.
Qed.

Lemma wire_is_register_write (c : command) (s : State) (t addr : Z) :
  fst (exec c s) = Ok tt ->
  is_register_write addr (t, WriteTo addr (wire c)).
Proof.
  intros Hok. unfold is_register_write. cbn [snd].
  destruct c as [b|b|mode| |id|p| ]; cbn [wire].
  - destruct b; vm_compute; intuition discriminate.
  - destruct b; vm_compute; intuition discriminate.
  - destruct (set_mode_accepts mode s Hok) as [->| ->];
      vm_compute; intuition discriminate.
  - vm_compute; intuition discriminate.
  - pose proof (label_next_id_accepts id s Hok) as Hid.
    unfold PERSON_SENSOR_NUM_IDS in Hid.
    rewrite byte_value_byte_of_Z by lia.
    split; [reflexivity|]. split; [|lia].
    vm_compute. intuition discriminate.
  - destruct p; vm_compute; intuition discriminate.
  - vm_compute; intuition discriminate.
Qed.

(** X1: [label_next_id] raises [ValueError] for every id below 0 or from
    [PERSON_SENSOR_NUM_IDS] (8) on, and then touches neither the object
    nor the bus; for every id from 0 to 7 it makes exactly one bus write,
    to the device address, of the two bytes 0x04 and the id. *)
Theorem label_next_id_bounds (id : Z) (s : State) :
  (id < 0 \/ PERSON_SENSOR_NUM_IDS <= id ->
   label_next_id id s
   = (Raise (ValueError "id must be between 0 and 7"), s))
  /\ (0 <= id < PERSON_SENSOR_NUM_IDS ->
      exists x : byte,
        byte_value x = id
        /\ label_next_id id s
           = (Ok tt,
              mkState (self s)
                      (mkWorld (clock (world s))
                               (trace (world s)
                                  ++ [(clock (world s),
                                       WriteTo (address (self s))
                                               [x04; x])])))).
Proof.
  unfold PERSON_SENSOR_NUM_IDS. split.
  - intros Hout. unfold label_next_id, PERSON_SENSOR_NUM_IDS.
    destruct (Z.ltb_spec id 0); cbn [orb]; [reflexivity|].
    destruct (Z.geb_spec id 8); [reflexivity|lia].
  - intros Hin. exists (Struct.byte_of_Z id).
    split; [apply byte_value_byte_of_Z; lia|].
    unfold label_next_id, PERSON_SENSOR_NUM_IDS.
    destruct (Z.ltb_spec id 0); [lia|].
    destruct (Z.geb_spec id 8); [lia|].
    cbn [orb]. unfold bind, lift, _REG_ADDR_LABEL_ID.
    rewrite bytes_pair by lia. reflexivity.
Qed.

Lemma label_next_id_bounds_witness :
  label_next_id 8 (PersonSensor_init true PERSON_SENSOR_I2C_ADDRESS
                                     (mkWorld 0 []))
  = (Raise (ValueError "id must be between 0 and 7"),
     PersonSensor_init true PERSON_SENSOR_I2C_ADDRESS (mkWorld 0 []))
  /\ exists x : byte,
       byte_value x = 7
       /\ label_next_id 7 (PersonSensor_init true 0 (mkWorld 0 []))
          = (Ok tt,
             mkState (self (PersonSensor_init true 0 (mkWorld 0 [])))
                     (mkWorld 0 [(0, WriteTo 0 [x04; x])])).
Proof.
  split.
  - apply (label_next_id_bounds
             8 (PersonSensor_init true PERSON_SENSOR_I2C_ADDRESS
                                  (mkWorld 0 []))).
    right. vm_compute. discriminate.
  - apply (proj2 (label_next_id_bounds
                    7 (PersonSensor_init true 0 (mkWorld 0 [])))).
    vm_compute. split; [discriminate|reflexivity].
Defined.

(** X2: whatever commands are issued, in whatever order and whether they
    return or raise, the attributes of the object (so [last_read] too) and
    the millisecond counter are left as they were, and all that is added
    to the trace is, per command at most, one two-byte write to the device
    address with a register from 0x01 to 0x07 and an argument from 0 to 7:
    no command reads the bus or sleeps. *)
Theorem commands_only_write_registers (cmds : list command) (s : State) :
  let s' := run_commands cmds s in
  self s' = self s
  /\ clock (world s') = clock (world s)
  /\ exists evs : list (Z * event),
       trace (world s') = trace (world s) ++ evs
       /\ Forall (is_register_write (address (self s))) evs
       /\ (length evs <= length cmds)%nat
       /\ read_times evs = []
       /\ sleeps evs = [].
Proof.
  revert s.
  induction cmds as [|c cmds IH]; intros s; cbn zeta.
  - cbn [run_commands fold_left].
    repeat split. exists []. rewrite app_nil_r.
    repeat split; [constructor | apply Nat.le_refl].
  - unfold run_commands. cbn [fold_left].
    fold (run_commands cmds (snd (exec c s))).
    destruct (fst (exec c s)) as [[]|e] eqn:Hres.
    + pose proof (wire_is_register_write
                    c s (clock (world s)) (address (self s)) Hres) as Hw.
      rewrite (exec_returns c s Hres). cbn [snd].
      specialize (IH (mkState (self s)
                              (log (WriteTo (address (self s)) (wire c))
                                   (world s)))).
      cbn zeta in IH. cbn [self world log clock trace] in IH.
      destruct IH as (Hself & Hclock & evs & Htrace & Hall & Hlen & Hr & Hs).
      split; [exact Hself|]. split; [exact Hclock|].
      exists ((clock (world s), WriteTo (address (self s)) (wire c)) :: evs).
      rewrite Htrace, <- app_assoc. cbn [app length read_times sleeps].
      repeat split; [constructor; assumption | lia | exact Hr | exact Hs].
    + rewrite (exec_raises c s Hres).
      specialize (IH s). cbn zeta in IH.
      destruct IH as (Hself & Hclock & evs & Htrace & Hall & Hlen & Hr & Hs).
      split; [exact Hself|]. split; [exact Hclock|].
      exists evs. cbn [length].
      repeat split; [exact Htrace | exact Hall | lia | exact Hr | exact Hs].
Qed.

(** X3: the bus write identifies the command: two commands that both
    return and leave the same world behind are the same method called
    with the same argument. *)
Theorem command_write_identifies_command (c1 c2 : command) (s : State) :
  fst (exec c1 s) = Ok tt ->
  fst (exec c2 s) = Ok tt ->
  world (snd (exec c1 s)) = world (snd (exec c2 s)) ->
  c1 = c2.
Proof.
  intros H1 H2 Hw.
  rewrite (exec_returns c1 s H1), (exec_returns c2 s H2) in Hw.
  cbn [snd world] in Hw. unfold log in Hw.
  injection Hw as Hw. apply app_inv_head in Hw.
  injection Hw as Hw.
  assert (Hmode : forall m, fst (exec (SetMode m) s) = Ok tt -> 0 <= m < 256).
  { intros m Hm. destruct (set_mode_accepts m s Hm); lia. }
  assert (Hid : forall i, fst (exec (LabelNextId i) s) = Ok tt -> 0 <= i < 256).
  { intros i Hi. pose proof (label_next_id_accepts i s Hi) as H.
    unfold PERSON_SENSOR_NUM_IDS in H. lia. }
  destruct c1 as [b1|b1|m1| |i1|p1| ], c2 as [b2|b2|m2| |i2|p2| ];
    cbn [wire] in Hw; try discriminate Hw; try reflexivity.
  - destruct b1, b2; try discriminate Hw; reflexivity.
  - destruct b1, b2; try discriminate Hw; reflexivity.
  - injection Hw as Hw. apply (f_equal byte_value) in Hw.
    rewrite !byte_value_byte_of_Z in Hw by auto. now subst.
  - injection Hw as Hw. apply (f_equal byte_value) in Hw.
    rewrite !byte_value_byte_of_Z in Hw by auto. now subst.
  - destruct p1, p2; try discriminate Hw; reflexivity.
Qed.

Lemma command_write_identifies_command_witness :
  SetMode 1 = SetMode 1.
Proof.
  apply (command_write_identifies_command
           (SetMode 1) (SetMode 1)
           (PersonSensor_init true PERSON_SENSOR_I2C_ADDRESS (mkWorld 0 [])));
    reflexivity.
Defined.

(** ** Decoded records, packed again *)

Lemma byte_of_Z_byte_value (x : byte) :
  Struct.byte_of_Z (byte_value x) = x.
Proof.
  unfold Struct.byte_of_Z, byte_value.
  pose proof (Byte.to_N_bounded x) as Hx.
  rewrite Z.mod_small by lia.
  rewrite N2Z.id, Byte.of_to_N. reflexivity.
Qed.

Lemma byte_of_Z_byte_at (buf : list byte) (p : nat) :
  Struct.byte_of_Z (Struct.byte_at buf p) = nth p buf x00.
Proof. apply byte_of_Z_byte_value. Qed.

Lemma byte_of_Z_signed (buf : list byte) (p : nat) :
  Struct.byte_of_Z (Struct.get_val Struct.fb buf p) = nth p buf x00.
Proof.
  cbn [Struct.get_val].
  destruct (Struct.byte_at buf p <? 128); [apply byte_of_Z_byte_at|].
  rewrite <- (byte_of_Z_byte_at buf p).
  unfold Struct.byte_of_Z.
  replace ((Struct.byte_at buf p - 256) mod 256)
    with (Struct.byte_at buf p mod 256); [reflexivity|].
  rewrite <- (Z_mod_plus_full (Struct.byte_at buf p - 256) 1 256).
  f_equal. lia.
Qed.

Lemma firstn_8_nth (l : list byte) :
  (8 <= length l)%nat ->
  firstn 8 l
  = [nth 0 l x00; nth 1 l x00; nth 2 l x00; nth 3 l x00;
     nth 4 l x00; nth 5 l x00; nth 6 l x00; nth 7 l x00].
Proof.
  intros H.
  do 8 (destruct l as [|? l]; [cbn [length] in H; lia|]).
  reflexivity.
Qed.

(** Packing the record found at [offset] gives back its eight bytes. *)
Lemma face_bytes_face_at (buf : list byte) (offset : nat) :
  (offset + 8 <= length buf)%nat ->
  face_bytes (face_at buf offset) = firstn 8 (skipn offset buf).
Proof.
  intros H.
  rewrite firstn_8_nth by (rewrite length_skipn; lia).
  rewrite !nth_skipn.
  unfold face_bytes, face_at, tuple_of_face.
  cbn [map box_confidence box_left box_top box_right box_bottom
       id_confidence id is_facing].
  rewrite byte_of_Z_signed, !byte_of_Z_byte_at.
  rewrite Nat.add_0_r. reflexivity.
Qed.

Lemma firstn_add_skipn (a b : nat) (l : list byte) :
  firstn (a + b) l = firstn a l ++ firstn b (skipn a l).
Proof.
  revert l. induction a as [|a IH]; intros l; [reflexivity|].
  destruct l as [|x l]; [now rewrite !firstn_nil|].
  cbn [Nat.add firstn skipn app]. now rewrite IH.
Qed.

Lemma flat_map_face_bytes_faces_at (buf : list byte) (n offset : nat) :
  (offset + 8 * n <= length buf)%nat ->
  flat_map face_bytes (faces_at buf offset n)
  = firstn (8 * n) (skipn offset buf).
Proof.
  revert offset. induction n as [|n IH]; intros offset H.
  - reflexivity.
  - rewrite faces_at_S. cbn [flat_map].
    rewrite face_bytes_face_at by lia.
    rewrite IH by lia.
    replace (8 * S n)%nat with (8 + 8 * n)%nat by lia.
    rewrite firstn_add_skipn, skipn_skipn.
    do 3 f_equal. lia.
Qed.

Lemma faces_at_length (buf : list byte) (offset n : nat) :
  length (faces_at buf offset n) = n.
Proof. unfold faces_at. now rewrite length_map, length_seq. Qed.

Lemma face_at_ok (buf : list byte) (offset : nat) :
  face_ok (face_at buf offset).
Proof.
  unfold face_ok, face_at.
  cbn [box_confidence box_left box_top box_right box_bottom
       id_confidence id is_facing Struct.get_val].
  pose proof (byte_at_range buf (offset + 6)) as H6.
  unfold u8 in H6.
  repeat split; try apply byte_at_range;
    destruct (Z.ltb_spec (Struct.byte_at buf (offset + 6)) 128); lia.
Qed.

Lemma faces_at_ok (buf : list byte) (offset n : nat) :
  Forall face_ok (faces_at buf offset n).
Proof.
  unfold faces_at. apply Forall_forall. intros f Hf.
  apply in_map_iff in Hf. destruct Hf as (k & <- & _). apply face_at_ok.
Qed.

(** X4: the decoder loses nothing: packing the records it returns gives
    back, byte for byte, the record bytes of the buffer, those that
    follow the header and the count byte. *)
Theorem decoded_records_pack_to_buffer_bytes
        (buffer : list byte) (u : Unpacked) :
  unpack_buffer buffer = Ok u ->
  flat_map face_bytes (u_faces u)
  = firstn (PERSON_SENSOR_FACE_BYTE_COUNT * length (u_faces u))
           (skipn (PERSON_SENSOR_I2C_HEADER_BYTE_COUNT + 1) buffer)
  /\ Forall face_ok (u_faces u).
Proof.
  intros Hu.
  change PERSON_SENSOR_FACE_BYTE_COUNT with 8%nat.
  change (PERSON_SENSOR_I2C_HEADER_BYTE_COUNT + 1)%nat with 5%nat.
  destruct (le_lt_dec (7 + 8 * num_faces_of buffer) (length buffer))
    as [Hfit|Hshort].
  - rewrite unpack_buffer_fits in Hu by exact Hfit.
    injection Hu as <-. cbn [u_faces].
    rewrite faces_at_length.
    split; [apply flat_map_face_bytes_faces_at; lia | apply faces_at_ok].
  - rewrite unpack_buffer_short in Hu by exact Hshort. discriminate.
Qed.

Lemma decoded_records_pack_to_buffer_bytes_witness :
  flat_map face_bytes [face_at frame_one_face 5]
  = [x63; x0a; x14; x1e; x28; x00; xff; x01].
Proof.
  assert (Hu : unpack_buffer frame_one_face
               = Ok (mkUnpacked [face_at frame_one_face 5] 0 13))
    by reflexivity.
  destruct (decoded_records_pack_to_buffer_bytes frame_one_face Hu)
    as [Hbytes _].
  cbn [u_faces] in Hbytes. rewrite Hbytes. reflexivity.
Defined.

(** ** What [get_faces] returns and leaves behind *)

Lemma fill_length (n : nat) (data : list byte) : length (fill n data) = n.
Proof.
  unfold fill. rewrite length_firstn, length_app, repeat_length. lia.
Qed.

Lemma frame_read_length (env : Env) :
  length (frame_read env) = PERSON_SENSOR_RESULT_BYTE_COUNT.
Proof. apply fill_length. Qed.

(** The unpacking code of [get_faces] never sees a buffer shorter than
    the fixed frame: the buffer is allocated at the full size and filled
    in place. *)
Lemma decoded_buffer_never_short (env : Env) :
  (fixed_frame_size <= length (frame_read env))%nat.
Proof. rewrite frame_read_length. vm_compute. lia. Qed.

(** The attributes after one call. *)
Lemma get_faces_self (env : Env) (s : State) :
  self (snd (get_faces env s))
  = mkPersonSensor
      (auto_delay (self s))
      (address (self s))
      (Some (frame_read env))
      (if auto_delay (self s)
       then clock (world s)
            + (PERSON_SENSOR_DELAY - (clock (world s) - last_read (self s)))
       else last_read (self s))
      (match unpack_buffer (frame_read env) with
       | Ok u => Some (u_checksum u)
       | Raise _ => last_checksum (self s)
       end).
Proof.
  destruct s as [[ad addr buf lr ck] w].
  unfold frame_read.
  step_get_faces.
  destruct ad; step_get_faces.
  - destruct (clock w - lr <? PERSON_SENSOR_DELAY); step_get_faces;
      solve_get_faces.
  - solve_get_faces.
Qed.

(** X5: [get_faces] returns normally exactly when the count byte of the
    frame read is at most [PERSON_SENSOR_FACE_MAX]; it then returns as
    many records as that byte says, never more than four, namely those of
    the first slots, every field within the range of its type.  With a
    larger count byte it raises the buffer-too-small error. *)
Theorem get_faces_returns_announced_faces (env : Env) (s : State) :
  let frame := frame_read env in
  let n := num_faces_of frame in
  ((n <= PERSON_SENSOR_FACE_MAX)%nat ->
   fst (get_faces env s) = Ok (faces_at frame 5 n))
  /\ ((PERSON_SENSOR_FACE_MAX < n)%nat ->
      fst (get_faces env s) = Raise Struct.buffer_too_small)
  /\ (forall faces : list PersonSensorFace,
         fst (get_faces env s) = Ok faces ->
         length faces = n
         /\ (length faces <= PERSON_SENSOR_FACE_MAX)%nat
         /\ Forall face_ok faces).
Proof.
  intros frame n.
  pose proof (frame_read_length env) as Hlen.
  change PERSON_SENSOR_RESULT_BYTE_COUNT with 40%nat in Hlen.
  change PERSON_SENSOR_FACE_MAX with 4%nat.
  rewrite get_faces_result. fold (frame_read env). fold frame.
  fold frame in Hlen.
  assert (Hfit : (n <= 4)%nat ->
                 rbind (unpack_buffer frame) (fun u => Ok (u_faces u))
                 = Ok (faces_at frame 5 n)).
  { intros Hn. subst n.
    rewrite unpack_buffer_fits by lia. reflexivity. }
  assert (Hshort : (4 < n)%nat ->
                   rbind (unpack_buffer frame) (fun u => Ok (u_faces u))
                   = Raise Struct.buffer_too_small).
  { intros Hn. subst n.
    rewrite unpack_buffer_short by lia. reflexivity. }
  split; [exact Hfit|]. split; [exact Hshort|].
  intros faces Hok.
  destruct (le_lt_dec n 4) as [Hn|Hn].
  - rewrite (Hfit Hn) in Hok. injection Hok as <-.
    rewrite faces_at_length.
    split; [reflexivity|]. split; [exact Hn | apply faces_at_ok].
  - rewrite (Hshort Hn) in Hok. discriminate.
Qed.

Lemma get_faces_returns_announced_faces_witness :
  fst (get_faces (mkEnv 0 frame_one_face)
                 (PersonSensor_init false 0 (mkWorld 0 [])))
  = Ok [face_at frame_one_face 5]
  /\ fst (get_faces garbled_env (PersonSensor_init false 0 (mkWorld 0 [])))
     = Raise Struct.buffer_too_small
  /\ (length [face_at frame_one_face 5] <= PERSON_SENSOR_FACE_MAX)%nat.
Proof.
  destruct (get_faces_returns_announced_faces
              (mkEnv 0 frame_one_face)
              (PersonSensor_init false 0 (mkWorld 0 [])))
    as (Hfit & _ & Hall).
  destruct (get_faces_returns_announced_faces
              garbled_env (PersonSensor_init false 0 (mkWorld 0 [])))
    as (_ & Hshort & _).
  assert (Hone : fst (get_faces (mkEnv 0 frame_one_face)
                                (PersonSensor_init false 0 (mkWorld 0 [])))
                 = Ok [face_at frame_one_face 5]).
  { rewrite Hfit; [reflexivity|]. vm_compute. lia. }
  split; [exact Hone|]. split.
  - apply Hshort. vm_compute. lia.
  - apply (Hall _ Hone).
Defined.

(** One call puts one block read on the trace, initiated where the
    counter stands when the call is over. *)
Lemma get_faces_read_times (env : Env) (s : State) :
  read_times (trace (world (snd (get_faces env s))))
  = read_times (trace (world s)) ++ [clock (world (snd (get_faces env s)))].
Proof.
  rewrite get_faces_world.
  destruct (auto_delay (self s)
            && (clock (world s) - last_read (self s) <? PERSON_SENSOR_DELAY));
    unfold log, advance; cbn [trace clock];
    rewrite !read_times_app; cbn [read_times app];
    now rewrite ?app_nil_r.
Qed.

(** On a bus that delivers, [get_faces_bus] is [get_faces]. *)
Lemma get_faces_bus_delivered (b : BusEnv) (s : State) :
  transfer b = Delivered ->
  get_faces_bus b s = get_faces (bus_env b) s.
Proof.
  intros H. unfold get_faces_bus, get_faces, readfrom_into_bus.
  rewrite H. reflexivity.
Qed.

(** On a bus whose transfer fails, the [OSError] leaves [get_faces] after
    the fresh buffer was allocated, the wait made and [last_read]
    assigned, and before anything is unpacked. *)
Lemma get_faces_bus_failed (b : BusEnv) (s : State) (errno : Z) :
  transfer b = Failed errno ->
  get_faces_bus b s
  = (Raise (OSError errno),
     mkState
       (mkPersonSensor
          (auto_delay (self s))
          (address (self s))
          (Some (bytearray PERSON_SENSOR_RESULT_BYTE_COUNT))
          (if auto_delay (self s)
           then clock (world s)
                + (PERSON_SENSOR_DELAY
                   - (clock (world s) - last_read (self s)))
           else last_read (self s))
          (last_checksum (self s)))
       (world (snd (get_faces (bus_env b) s)))).
Proof.
  intros H. rewrite get_faces_world.
  destruct s as [[ad addr buf lr ck] w].
  unfold get_faces_bus, readfrom_into_bus. rewrite H.
  step_get_faces.
  destruct ad; cbn [andb]; step_get_faces.
  - destruct (clock w - lr <? PERSON_SENSOR_DELAY); step_get_faces;
      reflexivity.
  - reflexivity.
Qed.

(** X6: whether the block read fails, the unpacking raises or the call
    returns, [get_faces] leaves [auto_delay] and [address] as they were,
    has assigned [last_read] as it does on success, and has put exactly
    one block read on the trace, initiated where the counter stands when
    the call is over.  If the transfer fails, the [OSError] of the bus
    propagates, the buffer is the fresh 40 zero bytes and [last_checksum]
    is what it was.  If the frame is delivered, the buffer holds it, all
    40 bytes; an exception is then the buffer-too-small error and leaves
    [last_checksum] as it was, and a return has stored in [last_checksum]
    the 16-bit value that follows the last returned record. *)
Theorem get_faces_state_after (b : BusEnv) (s : State) :
  let r := fst (get_faces_bus b s) in
  let s' := snd (get_faces_bus b s) in
  let frame := frame_read (bus_env b) in
  auto_delay (self s') = auto_delay (self s)
  /\ address (self s') = address (self s)
  /\ last_read (self s')
     = (if auto_delay (self s)
        then clock (world s)
             + (PERSON_SENSOR_DELAY - (clock (world s) - last_read (self s)))
        else last_read (self s))
  /\ read_times (trace (world s'))
     = read_times (trace (world s)) ++ [clock (world s')]
  /\ (forall errno : Z,
         transfer b = Failed errno ->
         r = Raise (OSError errno)
         /\ buffer (self s') = Some (bytearray PERSON_SENSOR_RESULT_BYTE_COUNT)
         /\ last_checksum (self s') = last_checksum (self s))
  /\ (transfer b = Delivered ->
      buffer (self s') = Some frame
      /\ length frame = PERSON_SENSOR_RESULT_BYTE_COUNT
      /\ (forall e : exn,
             r = Raise e ->
             e = Struct.buffer_too_small
             /\ last_checksum (self s') = last_checksum (self s))
      /\ (forall faces : list PersonSensorFace,
             r = Ok faces ->
             last_checksum (self s')
             = Some (Struct.get_val Struct.fH frame
                                    (5 + 8 * length faces)))).
Proof.
  intros r s' frame. subst r s'.
  destruct (transfer b) as [|errno] eqn:Hb.
  - rewrite (get_faces_bus_delivered b s Hb).
    pose proof (get_faces_read_times (bus_env b) s) as Hreads.
    rewrite get_faces_self, get_faces_result in *.
    fold (frame_read (bus_env b)). fold frame.
    cbn [buffer auto_delay address last_read last_checksum].
    split; [reflexivity|]. split; [reflexivity|]. split; [reflexivity|].
    split; [exact Hreads|].
    split; [intros errno Hf; discriminate Hf|].
    intros _.
    split; [reflexivity|].
    split; [apply frame_read_length|].
    pose proof (frame_read_length (bus_env b)) as Hlen. fold frame in Hlen.
    change PERSON_SENSOR_RESULT_BYTE_COUNT with 40%nat in Hlen.
    destruct (le_lt_dec (7 + 8 * num_faces_of frame) (length frame))
      as [Hfit|Hshort].
    + rewrite unpack_buffer_fits by exact Hfit.
      cbn [rbind u_faces u_checksum].
      split; [intros e He; discriminate He|].
      intros faces Hf. injection Hf as <-.
      now rewrite faces_at_length.
    + rewrite unpack_buffer_short by exact Hshort.
      cbn [rbind].
      split; [|intros faces Hf; discriminate Hf].
      intros e He. injection He as <-. split; reflexivity.
  - rewrite (get_faces_bus_failed b s Hb).
    cbn [fst snd self world buffer auto_delay address last_read
         last_checksum].
    split; [reflexivity|]. split; [reflexivity|]. split; [reflexivity|].
    split; [apply get_faces_read_times|].
    split.
    + intros errno' Hf. injection Hf as <-. repeat split.
    + intros Hd. discriminate Hd.
Qed.

Lemma get_faces_state_after_witness :
  fst (get_faces_bus (mkBusEnv quiet_env (Failed 19))
                     (PersonSensor_init true 0 (mkWorld 0 [])))
  = Raise (OSError 19)
  /\ last_checksum
       (self (snd (get_faces_bus (mkBusEnv garbled_env Delivered)
                                 (PersonSensor_init true 0 (mkWorld 0 [])))))
     = None
  /\ last_checksum
       (self (snd (get_faces_bus
                     (mkBusEnv (mkEnv 0 frame_one_face) Delivered)
                     (PersonSensor_init true 0 (mkWorld 0 [])))))
     = Some 0.
Proof.
  destruct (get_faces_state_after
              (mkBusEnv quiet_env (Failed 19))
              (PersonSensor_init true 0 (mkWorld 0 [])))
    as (_ & _ & _ & _ & Hfail & _).
  destruct (get_faces_state_after
              (mkBusEnv garbled_env Delivered)
              (PersonSensor_init true 0 (mkWorld 0 [])))
    as (_ & _ & _ & _ & _ & Hgarbled).
  destruct (get_faces_state_after
              (mkBusEnv (mkEnv 0 frame_one_face) Delivered)
              (PersonSensor_init true 0 (mkWorld 0 [])))
    as (_ & _ & _ & _ & _ & Hone).
  destruct (Hfail 19 eq_refl) as (Hr & _ & _).
  destruct (Hgarbled eq_refl) as (_ & _ & Hraise & _).
  destruct (Hone eq_refl) as (_ & _ & _ & Hok).
  split; [exact Hr|]. split.
  - destruct (Hraise Struct.buffer_too_small eq_refl) as [_ Hck].
    rewrite Hck. reflexivity.
  - rewrite (Hok [face_at frame_one_face 5] eq_refl). reflexivity.
Defined.

(** ** The rate the scheduler does enforce *)

Section OneCall.

Variable c : Call.
Variable s : State.

Let now : Z := clock (world s) + idle c.
Let waits : bool :=
  auto_delay (self s) && (now - last_read (self s) <? PERSON_SENSOR_DELAY).

Lemma call_auto_delay :
  auto_delay (self (snd (call c s))) = auto_delay (self s).
Proof. unfold call. now rewrite get_faces_self. Qed.

Lemma call_last_read :
  last_read (self (snd (call c s)))
  = if auto_delay (self s)
    then last_read (self s) + PERSON_SENSOR_DELAY
    else last_read (self s).
Proof.
  unfold call. rewrite get_faces_last_read.
  unfold pass. cbn [self world].
  destruct (auto_delay (self s)); [lia | reflexivity].
Qed.

Lemma call_clock :
  clock (world (snd (call c s)))
  = if waits
    then last_read (self s) + PERSON_SENSOR_DELAY + oversleep (env c)
    else now.
Proof.
  unfold call. rewrite get_faces_world.
  unfold pass. cbn [self world]. unfold advance at 1 2 3. cbn [clock].
  fold now. fold waits.
  destruct waits; unfold log, advance; cbn [clock]; [lia | reflexivity].
Qed.

Lemma call_read_time :
  read_time_of (snd (call c s)) = clock (world (snd (call c s))).
Proof.
  unfold read_time_of, call.
  rewrite get_faces_read_times. apply last_last.
Qed.

Lemma call_sleeps :
  sleeps (trace (world (snd (call c s))))
  = sleeps (trace (world s))
      ++ (if waits
          then [PERSON_SENSOR_DELAY - (now - last_read (self s))]
          else []).
Proof.
  unfold call. rewrite get_faces_world.
  unfold pass. cbn [self world]. unfold advance at 1 2 3. cbn [clock].
  fold now. fold waits.
  destruct waits; unfold log, advance; cbn [clock trace];
    rewrite !sleeps_app; cbn [sleeps app]; now rewrite ?app_nil_r.
Qed.

End OneCall.

Lemma spaced_every_delay (base : Z) (n : nat) :
  spaced PERSON_SENSOR_DELAY (every_delay base n) = true.
Proof.
  revert base. induction n as [|n IH]; intros base; [reflexivity|].
  cbn [every_delay]. specialize (IH (base + PERSON_SENSOR_DELAY)).
  destruct n as [|n]; [reflexivity|].
  cbn [every_delay spaced] in IH |- *.
  rewrite Z.leb_refl. exact IH.
Qed.

(** X7: with [auto_delay] on and sleeps that never end early, whatever
    time passes between the calls, the read of the (k+1)-th [get_faces]
    is initiated no earlier than [PERSON_SENSOR_DELAY] * (k+1) after the
    [last_read] the run started with (for a fresh instance, the moment of
    its construction): over any stretch counted from there, the reads are
    at most one per 200 ms on average. *)
Theorem reads_paced_on_average
        (calls : list Call) (s : State) (k : nat) (st : State) :
  auto_delay (self s) = true ->
  Forall (fun c => 0 <= oversleep (env c)) calls ->
  nth_error (run calls s) k = Some st ->
  last_read (self st)
  = last_read (self s) + PERSON_SENSOR_DELAY * (Z.of_nat k + 1)
  /\ last_read (self st) <= read_time_of st.
Proof.
  revert s k st.
  induction calls as [|c calls IH]; intros s k st Hauto Hover Hk.
  - destruct k; discriminate Hk.
  - inversion Hover as [|? ? Hc Hrest]; subst.
    cbn [run] in Hk.
    pose proof (call_last_read c s) as Hlast.
    rewrite Hauto in Hlast.
    destruct k as [|k].
    + cbn [nth_error] in Hk. injection Hk as <-.
      rewrite Hlast, call_read_time, call_clock, Hauto. cbn [andb].
      unfold PERSON_SENSOR_DELAY.
      split; [lia|].
      destruct (Z.ltb_spec (clock (world s) + idle c - last_read (self s))
                           200); lia.
    + cbn [nth_error] in Hk.
      assert (Hauto' : auto_delay (self (snd (call c s))) = true)
        by (now rewrite call_auto_delay).
      destruct (IH _ _ _ Hauto' Hrest Hk) as [Heq Hle].
      split; [|exact Hle].
      rewrite Heq, Hlast, Nat2Z.inj_succ. unfold PERSON_SENSOR_DELAY. lia.
Qed.

Lemma reads_paced_on_average_witness :
  last_read (self (snd (call burst_second_call
                         (snd (call burst_first_call
                                 (PersonSensor_init true 0 (mkWorld 0 [])))))))
  = 400
  /\ 400 <= read_time_of
              (snd (call burst_second_call
                      (snd (call burst_first_call
                              (PersonSensor_init true 0 (mkWorld 0 [])))))).
Proof.
  assert (Hover : Forall (fun c => 0 <= oversleep (env c))
                         [burst_first_call; burst_second_call]).
  { repeat constructor; vm_compute; discriminate. }
  destruct (@reads_paced_on_average
              [burst_first_call; burst_second_call]
              (PersonSensor_init true 0 (mkWorld 0 []))
              1 _ eq_refl Hover eq_refl) as [Heq Hle].
  split.
  - rewrite Heq. reflexivity.
  - rewrite Heq in Hle. exact Hle.
Defined.

(** X8: with [auto_delay] on, from a state whose counter stands at
    [last_read] (a fresh instance, or one whose last call waited), calls
    that each arrive less than 200 ms after the previous one returned,
    with sleeps that end on time, start their reads exactly
    [PERSON_SENSOR_DELAY] apart: at [last_read] + 200, + 400, and so
    on. *)
Theorem dense_calls_read_every_delay (calls : list Call) (s : State) :
  auto_delay (self s) = true ->
  clock (world s) = last_read (self s) ->
  Forall (fun c => 0 <= idle c < PERSON_SENSOR_DELAY
                   /\ oversleep (env c) = 0) calls ->
  map read_time_of (run calls s)
  = every_delay (last_read (self s)) (length calls)
  /\ spaced PERSON_SENSOR_DELAY (map read_time_of (run calls s)) = true.
Proof.
  intros Hauto Hclock Hcalls.
  assert (Hmap : map read_time_of (run calls s)
                 = every_delay (last_read (self s)) (length calls)).
  { revert s Hauto Hclock.
    induction Hcalls as [|c calls [Hidle Hover] _ IH]; intros s Hauto Hclock.
    - reflexivity.
    - cbn [run map length every_delay].
      assert (Hck : clock (world (snd (call c s)))
                    = last_read (self s) + PERSON_SENSOR_DELAY).
      { rewrite call_clock, Hauto, Hover, Hclock. cbn [andb].
        destruct (Z.ltb_spec (last_read (self s) + idle c - last_read (self s))
                             PERSON_SENSOR_DELAY); lia. }
      assert (Hlr : last_read (self (snd (call c s)))
                    = last_read (self s) + PERSON_SENSOR_DELAY)
        by (now rewrite call_last_read, Hauto).
      rewrite call_read_time, Hck. f_equal.
      rewrite <- Hlr. apply IH.
      + now rewrite call_auto_delay.
      + now rewrite Hck, Hlr. }
  split; [exact Hmap|].
  rewrite Hmap. apply spaced_every_delay.
Qed.

Lemma dense_calls_read_every_delay_witness :
  map read_time_of
      (run [mkCall 0 quiet_env; mkCall 50 quiet_env; mkCall 199 quiet_env]
           (PersonSensor_init true 0 (mkWorld 5 [])))
  = [205; 405; 605].
Proof.
  apply (proj1 (@dense_calls_read_every_delay
                  [mkCall 0 quiet_env; mkCall 50 quiet_env;
                   mkCall 199 quiet_env]
                  (PersonSensor_init true 0 (mkWorld 5 []))
                  eq_refl eq_refl
                  ltac:(repeat constructor; vm_compute;
                        try reflexivity; discriminate))).
Defined.

(** X9: when time does not run backwards and sleeps do not end early,
    from a state whose [last_read] is not ahead of the counter (as the
    constructor leaves it), every state a run of [get_faces] calls reaches
    has [last_read] not ahead of the counter, and every sleep requested is
    longer than 0 and at most [PERSON_SENSOR_DELAY] milliseconds: no call
    blocks for more than 200 ms (and the overshoot of the sleep itself),
    and [time.sleep] is never asked for a negative time. *)
Theorem sleeps_requested_are_bounded (calls : list Call) (s : State) :
  last_read (self s) <= clock (world s) ->
  Forall (fun ms => 0 < ms <= PERSON_SENSOR_DELAY)
         (sleeps (trace (world s))) ->
  Forall (fun c => 0 <= idle c /\ 0 <= oversleep (env c)) calls ->
  Forall (fun st =>
            last_read (self st) <= clock (world st)
            /\ Forall (fun ms => 0 < ms <= PERSON_SENSOR_DELAY)
                      (sleeps (trace (world st))))
         (run calls s).
Proof.
  intros Hinv Hsl Hcalls. revert s Hinv Hsl.
  induction Hcalls as [|c calls [Hidle Hover] _ IH]; intros s Hinv Hsl.
  - constructor.
  - cbn [run].
    assert (Hstep : last_read (self (snd (call c s)))
                    <= clock (world (snd (call c s)))
                    /\ Forall (fun ms => 0 < ms <= PERSON_SENSOR_DELAY)
                              (sleeps (trace (world (snd (call c s)))))).
    { rewrite call_last_read, call_clock, call_sleeps.
      destruct (auto_delay (self s)); cbn [andb].
      - destruct (Z.ltb_spec (clock (world s) + idle c - last_read (self s))
                             PERSON_SENSOR_DELAY).
        + split; [lia|].
          apply Forall_app. split; [exact Hsl|].
          constructor; [lia | constructor].
        + split; [lia|]. now rewrite app_nil_r.
      - split; [lia|]. now rewrite app_nil_r. }
    destruct Hstep as [Hinv' Hsl'].
    constructor; [split; assumption|].
    apply IH; assumption.
Qed.

Lemma sleeps_requested_are_bounded_witness :
  Forall (fun st =>
            last_read (self st) <= clock (world st)
            /\ Forall (fun ms => 0 < ms <= PERSON_SENSOR_DELAY)
                      (sleeps (trace (world st))))
         (run [mkCall 0 quiet_env; burst_first_call; burst_second_call]
              (PersonSensor_init true 0 (mkWorld 0 []))).
Proof.
  apply (@sleeps_requested_are_bounded
           [mkCall 0 quiet_env; burst_first_call; burst_second_call]
           (PersonSensor_init true 0 (mkWorld 0 []))).
  - vm_compute. discriminate.
  - constructor.
  - repeat constructor; vm_compute; discriminate.
Defined.
